(** * Giraffe race Monte Carlo calculator (src/unnamed/part_003)

    A shallow embedding of the race simulator, the finish-order resolver,
    the dead-heat credit accumulator and the aggregator
    [calculateProbabilities].

    Modelling choices:
    - JS numbers that are integers in the code (distances, finish times,
      basis points, 32-bit words) are [Z]; the 32-bit wrap-around of
      [>>> 0] and [Math.imul] is written out with [u32].
    - A JS number given by the caller (a score, [samples]) is [num]: a finite
      value (a rational, which every double is) or NaN or an infinity.
    - Credits are exact rationals [Q]; the code accumulates them in
      doubles.
    - A TypeError thrown by an out-of-range access is [None]. *)

From Stdlib Require Import String.
From Stdlib Require Import ZArith QArith Qround List Permutation Lia Lqa Bool.
From Stdlib Require Import Sorting.Sorted.
Import ListNotations.

Open Scope Z_scope.

(** ** JS numbers as received from the caller *)

Inductive num :=
| Fin (q : Q)
| NaN
| PosInf
| NegInf.

(** [Number.isFinite] *)
Definition isFinite (x : num) : bool :=
  match x with Fin _ => true | _ => false end.

(** Low 32 bits: [x >>> 0] on an integer-valued number. *)
Definition u32 (z : Z) : Z := Z.land z (Z.ones 32).

(** Rounding of an exact integer to the nearest double (ties to even):
    the value of a JS multiplication of two integers whose product may
    exceed 2^53. *)
Definition to_double_int (z : Z) : Z :=
  let a := Z.abs z in
  if a <? 2 ^ 53 then z
  else
    let e := Z.log2 a - 52 in
    let m := a / 2 ^ e in
    let r := a mod 2 ^ e in
    let half := 2 ^ (e - 1) in
    let m' := if half <? r then m + 1
              else if r <? half then m
              else if Z.even m then m else m + 1 in
    Z.sgn z * (m' * 2 ^ e).

(** ** Constants *)

Definition LANE_COUNT : nat := 6.
Definition SPEED_RANGE : Z := 10.
Definition TRACK_LENGTH : Z := 1000.
Definition FINISH_OVERSHOOT : Z := 10.
Definition MAX_TICKS : nat := 500.
Definition FINISH_TIME_PRECISION : Z := 10000.

(** ** FastRng (xorshift128) *)

Record FastRng := mkRng { s0 : Z; s1 : Z; s2 : Z; s3 : Z }.

(** [next()]: returns the new state and the value returned.  The JS code
    works on int32 values in between; only their low 32 bits matter, which
    [u32] keeps. *)
Definition next (g : FastRng) : FastRng * Z :=
  let t := s3 g in
  let s := s0 g in
  let t := u32 (Z.lxor t (Z.shiftl t 11)) in
  let t := Z.lxor t (Z.shiftr t 8) in
  let s0' := u32 (Z.lxor (Z.lxor t s) (Z.shiftr s 19)) in
  (mkRng s0' s (s1 g) (s2 g), s0').

(** [roll(n)] *)
Definition roll (g : FastRng) (n : Z) : FastRng * Z :=
  if n <=? 1 then (g, 0)
  else let '(g', v) := next g in (g', v mod n).

Fixpoint warmUp (k : nat) (g : FastRng) : FastRng :=
  match k with
  | O => g
  | S k' => warmUp k' (fst (next g))
  end.

Definition orDefault (v d : Z) : Z := if v =? 0 then d else v.

(** [new FastRng(seed)] for an integer [seed]. *)
Definition newFastRng (seed : Z) : FastRng :=
  warmUp 20
    (mkRng (orDefault (u32 seed) 0x12345678)
           (orDefault (u32 (seed * 0x85ebca6b)) 0x9abcdef0)
           (orDefault (u32 (seed * 0xc2b2ae35)) 0xdeadbeef)
           (orDefault (u32 (seed * 0x27d4eb2f)) 0xcafebabe)).

(** ** splitmix32: returns the updated [state.x] and the output. *)
Definition splitmix32Next (x : Z) : Z * Z :=
  let x' := u32 (x + 0x9e3779b9) in
  let z := x' in
  let z := u32 (Z.lxor z (Z.shiftr z 16) * 0x85ebca6b) in
  let z := u32 (Z.lxor z (Z.shiftr z 13) * 0xc2b2ae35) in
  (x', u32 (Z.lxor z (Z.shiftr z 16))).

(** ** Score helpers *)

(** [clampScore(r)]: [Math.floor(Number(r))], then the range checks. *)
Definition clampScore (r : num) : Z :=
  match r with
  | Fin q =>
      let x := Qfloor q in
      if x <? 1 then 1 else if 10 <? x then 10 else x
  | _ => 1
  end.

Definition scoreBps (score : num) : Z :=
  let r := clampScore score in
  let minBps := 9585 in
  let range := 10000 - minBps in
  minBps + ((r - 1) * range) / 9.

(** ** Lists updated by index ([xs[i] = v] on an in-range index). *)
Fixpoint list_set {A} (i : nat) (v : A) (xs : list A) : list A :=
  match xs, i with
  | [], _ => []
  | _ :: xs', O => v :: xs'
  | x :: xs', S i' => x :: list_set i' v xs'
  end.

(** ** Single-race simulation *)

(** One lane's move in one tick: the speed roll, the bias and the
    probabilistic rounding (second draw only when [rem > 0]).  Returns the
    new generator and [speed]. *)
Definition laneStep (rng : FastRng) (bpsA : Z) : FastRng * Z :=
  let '(rng1, r) := roll rng SPEED_RANGE in
  let baseSpeed := r + 1 in
  let raw := baseSpeed * bpsA in
  let q := raw / 10000 in
  let rem := Z.rem raw 10000 in
  let '(rng2, q) :=
    if 0 <? rem then
      let '(rng2, pick) := roll rng1 10000 in
      (rng2, if pick <? rem then q + 1 else q)
    else (rng1, q) in
  (rng2, if 0 <? q then q else 1).

Record RaceState := mkRace {
  rng : FastRng;
  distances : list Z;
  finishTimes : list Z
}.

(** Body of [for (let a = 0; a < LANE_COUNT; a++)] in tick [t]. *)
Definition moveLane (t : Z) (bps : list Z) (st : RaceState) (a : nat)
    : RaceState :=
  let '(rng', speed) := laneStep (rng st) (nth a bps 0) in
  let prevDist := nth a (distances st) 0 in
  let d := prevDist + speed in
  let ft :=
    if (nth a (finishTimes st) 0 =? -1) && (prevDist <? TRACK_LENGTH)
       && (TRACK_LENGTH <=? d)
    then
      let distanceToFinish := TRACK_LENGTH - prevDist in
      let fractional := (distanceToFinish * FINISH_TIME_PRECISION) / speed in
      list_set a (t * FINISH_TIME_PRECISION + fractional) (finishTimes st)
    else finishTimes st in
  mkRace rng' (list_set a d (distances st)) ft.

Definition tick (t : Z) (bps : list Z) (st : RaceState) : RaceState :=
  fold_left (moveLane t bps) (seq 0 LANE_COUNT) st.

Definition allFinished (ds : list Z) : bool :=
  forallb (fun d => TRACK_LENGTH + FINISH_OVERSHOOT <=? d)
          (firstn LANE_COUNT ds).

(** [for (let t = 0; t < MAX_TICKS; t++)] with its early [break]; with
    [fuel] ticks left the loop index is [t]. *)
Fixpoint race (fuel : nat) (t : Z) (bps : list Z) (st : RaceState)
    : RaceState :=
  match fuel with
  | O => st
  | S fuel' =>
      if allFinished (distances st) then st
      else race fuel' (t + 1) bps (tick t bps st)
  end.

(** [scores[i]]; a missing entry is [undefined], and [Number(undefined)]
    is NaN. *)
Definition scoreAt (scores : list num) (i : nat) : num :=
  match nth_error scores i with Some s => s | None => NaN end.

(** ** Finish-order resolver *)

(** [{ lane, time, distance: distances[lane] }]; [distances[lane]] is
    [undefined] ([None]) past the end of [distances]. *)
Record Entry := mkEntry { lane : nat; time : Z; distance : option Z }.

(** The sort comparator.  [b.distance - a.distance] is NaN when a distance
    is [undefined], and [Array.prototype.sort] reads a NaN result as 0. *)
Definition cmpEntry (a b : Entry) : Z :=
  if negb (time a =? time b) then time a - time b
  else match distance b, distance a with
       | Some db, Some da => db - da
       | _, _ => 0
       end.

(** [Array.prototype.sort] is stable; with a consistent comparator its
    result is the stable sort, computed here by insertion. *)
Fixpoint insertEntry (x : Entry) (l : list Entry) : list Entry :=
  match l with
  | [] => [x]
  | y :: l' => if cmpEntry x y <=? 0 then x :: l else y :: insertEntry x l'
  end.

Fixpoint sortEntries (l : list Entry) : list Entry :=
  match l with
  | [] => []
  | x :: l' => insertEntry x (sortEntries l')
  end.

(** [finishTimes.map((time, lane) => ...)] *)
Definition mkEntries (finishTimes distances : list Z) : list Entry :=
  map (fun p => mkEntry (snd p) (fst p) (nth_error distances (snd p)))
      (combine finishTimes (seq 0 (length finishTimes))).

Record Group := mkGroup { gtime : Z; glanes : list nat }.

(** The grouping loop over [sorted[1..]], [cur] being [currentGroup]. *)
Fixpoint groupBy (cur : Group) (rest : list Entry) : list Group :=
  match rest with
  | [] => [cur]
  | e :: rest' =>
      if time e =? gtime cur
      then groupBy (mkGroup (gtime cur) (glanes cur ++ [lane e])) rest'
      else cur :: groupBy (mkGroup (time e) [lane e]) rest'
  end.

Record Band := mkBand { lanes : list nat; count : Z }.

Definition emptyBand : Band := mkBand [] 0.

Record FinishOrder := mkOrder { first : Band; second : Band; third : Band }.

Definition bandOf (g : Group) : Band :=
  mkBand (glanes g) (Z.of_nat (length (glanes g))).

(** [for (const group of groups)] assigning positions. *)
Fixpoint assignPositions (position : Z) (groups : list Group)
    (fo : FinishOrder) : FinishOrder :=
  match groups with
  | [] => fo
  | g :: gs =>
      let n := Z.of_nat (length (glanes g)) in
      if position =? 0 then
        assignPositions (position + n) gs (mkOrder (bandOf g) (second fo) (third fo))
      else if position =? 1 then
        assignPositions (position + n) gs (mkOrder (first fo) (bandOf g) (third fo))
      else if position =? 2 then
        assignPositions (position + n) gs (mkOrder (first fo) (second fo) (bandOf g))
      else if 3 <=? position then fo
      else assignPositions position gs fo
  end.

(** [calculateFinishOrder(finishTimes, distances)]; [None] is the
    TypeError of reading [sorted[0].time] on an empty array. *)
Definition calculateFinishOrder (finishTimes distances : list Z)
    : option FinishOrder :=
  match sortEntries (mkEntries finishTimes distances) with
  | [] => None
  | e0 :: rest =>
      Some (assignPositions 0 (groupBy (mkGroup (time e0) [lane e0]) rest)
                            (mkOrder emptyBand emptyBand emptyBand))
  end.

(** [simulateFullRace(seed, scores)]: the finish order, the final
    distances and the finish times. *)
Definition simulateFullRace (seed : Z) (scores : list num)
    : option (FinishOrder * list Z * list Z) :=
  let bps := map (fun i => scoreBps (scoreAt scores i)) (seq 0 LANE_COUNT) in
  let st := race MAX_TICKS 0 bps
                 (mkRace (newFastRng seed) (repeat 0 LANE_COUNT)
                         (repeat (-1) LANE_COUNT)) in
  match calculateFinishOrder (finishTimes st) (distances st) with
  | Some fo => Some (fo, distances st, finishTimes st)
  | None => None
  end.

(** ** Credit accumulator *)

Record LaneStats := mkStats {
  winCredits : Q;
  placeCredits : Q;
  showCredits : Q
}.

Inductive Credit := Win | Place | Show.

Definition credit (k : Credit) (s : LaneStats) : Q :=
  match k with
  | Win => winCredits s
  | Place => placeCredits s
  | Show => showCredits s
  end.

(** [stats[lane].<k>Credits += v] *)
Definition addCredit (k : Credit) (v : Q) (s : LaneStats) : LaneStats :=
  match k with
  | Win => mkStats (winCredits s + v) (placeCredits s) (showCredits s)
  | Place => mkStats (winCredits s) (placeCredits s + v) (showCredits s)
  | Show => mkStats (winCredits s) (placeCredits s) (showCredits s + v)
  end.

Definition obind {A B} (m : option A) (k : A -> option B) : option B :=
  match m with Some a => k a | None => None end.

Notation "x <- m ;; k" := (obind m (fun x => k))
  (at level 61, m at next level, right associativity).

(** [stats[lane] ...]: a TypeError ([None]) when [stats[lane]] is
    [undefined]. *)
Definition bumpLane (k : Credit) (v : Q) (stats : list LaneStats) (l : nat)
    : option (list LaneStats) :=
  match nth_error stats l with
  | Some s => Some (list_set l (addCredit k v s) stats)
  | None => None
  end.

(** [for (const lane of ls) stats[lane].<k>Credits += v;] *)
Fixpoint forEachLane (k : Credit) (v : Q) (ls : list nat)
    (stats : list LaneStats) : option (list LaneStats) :=
  match ls with
  | [] => Some stats
  | l :: ls' => st <- bumpLane k v stats l ;; forEachLane k v ls' st
  end.

Definition zq (z : Z) : Q := inject_Z z.

Definition accumulateStats (stats : list LaneStats) (fo : FinishOrder)
    : option (list LaneStats) :=
  let first := first fo in
  let second := second fo in
  let third := third fo in
  (* WIN *)
  let winShare := (1 / zq (count first))%Q in
  st <- forEachLane Win winShare (lanes first) stats ;;
  (* PLACE *)
  let placeSpots := 2 in
  p <- (if count first <=? placeSpots then
          st <- forEachLane Place 1%Q (lanes first) st ;; Some (st, count first)
        else
          let placeShare := (zq placeSpots / zq (count first))%Q in
          st <- forEachLane Place placeShare (lanes first) st ;;
          Some (st, placeSpots)) ;;
  let '(st, placeUsed) := p in
  let placeRemaining := placeSpots - placeUsed in
  st <- (if (0 <? placeRemaining) && (0 <? count second) then
           if count second <=? placeRemaining then
             forEachLane Place 1%Q (lanes second) st
           else
             let placeShare := (zq placeRemaining / zq (count second))%Q in
             forEachLane Place placeShare (lanes second) st
         else Some st) ;;
  (* SHOW *)
  let showSpots := 3 in
  p <- (if count first <=? showSpots then
          st <- forEachLane Show 1%Q (lanes first) st ;; Some (st, count first)
        else
          let showShare := (zq showSpots / zq (count first))%Q in
          st <- forEachLane Show showShare (lanes first) st ;;
          Some (st, showSpots)) ;;
  let '(st, showUsed) := p in
  let showRemaining := showSpots - showUsed in
  p <- (if (0 <? showRemaining) && (0 <? count second) then
          if count second <=? showRemaining then
            st <- forEachLane Show 1%Q (lanes second) st ;;
            Some (st, showUsed + count second)
          else
            let showShare := (zq showRemaining / zq (count second))%Q in
            st <- forEachLane Show showShare (lanes second) st ;;
            Some (st, showSpots)
        else Some (st, showUsed)) ;;
  let '(st, showUsed) := p in
  let showRemaining := showSpots - showUsed in
  if (0 <? showRemaining) && (0 <? count third) then
    if count third <=? showRemaining then
      forEachLane Show 1%Q (lanes third) st
    else
      let showShare := (zq showRemaining / zq (count third))%Q in
      forEachLane Show showShare (lanes third) st
  else Some st.

(** ** Aggregator *)

(** [Math.round(p * 10000)] *)
Definition fmtBps (p : Q) : Z := Qfloor (p * 10000 + (1 # 2))%Q.

Record Result := mkResult {
  r_scores : list Z;
  r_samples : num;
  elapsedMs : Z;
  winProbBps : list Z;
  placeProbBps : list Z;
  showProbBps : list Z
}.
(* The [lanes] field of the JS result repeats the same per-lane numbers
   and is left out. *)

Inductive Outcome :=
| Throw (msg : String.string)
| Return (r : Result).

(** [seedState.x] after mixing in the clamped scores. *)
Definition mixScores (x : Z) (clamped : list Z) : Z :=
  fold_left (fun x s => fst (splitmix32Next (u32 (Z.lxor x (u32 (s * 0x85ebca6b))))))
            clamped x.

Definition initialSeed (salt : Z) : Z :=
  orDefault (u32 (to_double_int (salt * 0x9e3779b9))) 0x12345678.

Definition numOfZ (z : Z) : num := Fin (zq z).

(** The sample loop.  Besides the seed state and the stats it returns the
    calls made to [simulateFullRace] (seed and scores), in order; [None]
    is a TypeError inside the loop. *)
Fixpoint runSamples (n : nat) (x : Z) (clamped : list Z)
    (stats : list LaneStats) : list (Z * list Z) * option (list LaneStats) :=
  match n with
  | O => ([], Some stats)
  | S n' =>
      let '(x', seed) := splitmix32Next x in
      match simulateFullRace seed (map numOfZ clamped) with
      | None => ([(seed, clamped)], None)
      | Some (fo, _, _) =>
          match accumulateStats stats fo with
          | None => ([(seed, clamped)], None)
          | Some st' =>
              let '(calls, r) := runSamples n' x' clamped st' in
              ((seed, clamped) :: calls, r)
          end
      end
  end.

(** Number of iterations of [for (let i = 0; i < samples; i++)]. *)
Definition iterations (q : Q) : nat := Z.to_nat (Qceiling q).

(** [calculateProbabilities(scores, samples, salt)].  [clock] holds the
    two readings of [Date.now()]; the result is the list of simulations
    run and the outcome. *)
Definition calculateProbabilities (clock : Z * Z) (scores : list num)
    (samples : num) (salt : Z) : list (Z * list Z) * Outcome :=
  if negb (Nat.eqb (length scores) LANE_COUNT) then
    ([], Throw "Expected 6 scores"%string)
  else
  match samples with
  | Fin q =>
      if Qle_bool q 0 then ([], Throw "samples must be > 0"%string) else
      let clampedScores := map clampScore scores in
      let stats := repeat (mkStats 0%Q 0%Q 0%Q) LANE_COUNT in
      let x := mixScores (initialSeed salt) clampedScores in
      let started := fst clock in
      let '(calls, r) := runSamples (iterations q) x clampedScores stats in
      match r with
      | None => (calls, Throw "TypeError"%string)
      | Some stats =>
          let elapsed := snd clock - started in
          let per k := map (fun s => fmtBps (credit k s / q)%Q) stats in
          (calls, Return (mkResult clampedScores samples elapsed
                            (per Win) (per Place) (per Show)))
      end
  | _ => ([], Throw "samples must be > 0"%string)
  end.

(** ** The earlier copy of the simulator (second module of part_003)

    Its lane move draws the speed as [moveLane] does, but records the
    tick of crossing, [finishTicks[a] = t]; [finishTicks] is kept in the
    [finishTimes] field. *)
Definition moveLaneTicks (t : Z) (bps : list Z) (st : RaceState) (a : nat)
    : RaceState :=
  let '(rng', speed) := laneStep (rng st) (nth a bps 0) in
  let prevDist := nth a (distances st) 0 in
  let d := prevDist + speed in
  let fk :=
    if (nth a (finishTimes st) 0 =? -1) && (prevDist <? TRACK_LENGTH)
       && (TRACK_LENGTH <=? d)
    then list_set a t (finishTimes st)
    else finishTimes st in
  mkRace rng' (list_set a d (distances st)) fk.

Definition tickTicks (t : Z) (bps : list Z) (st : RaceState) : RaceState :=
  fold_left (moveLaneTicks t bps) (seq 0 LANE_COUNT) st.

Fixpoint raceTicks (fuel : nat) (t : Z) (bps : list Z) (st : RaceState)
    : RaceState :=
  match fuel with
  | O => st
  | S fuel' =>
      if allFinished (distances st) then st
      else raceTicks fuel' (t + 1) bps (tickTicks t bps st)
  end.

(** [simulateFullRace(seed, scores)] of the earlier copy: the finish
    order (same resolver, on ticks), the final distances and the finish
    ticks. *)
Definition simulateFullRaceTicks (seed : Z) (scores : list num)
    : option (FinishOrder * list Z * list Z) :=
  let bps := map (fun i => scoreBps (scoreAt scores i)) (seq 0 LANE_COUNT) in
  let st := raceTicks MAX_TICKS 0 bps
              (mkRace (newFastRng seed) (repeat 0 LANE_COUNT)
                      (repeat (-1) LANE_COUNT)) in
  match calculateFinishOrder (finishTimes st) (distances st) with
  | Some fo => Some (fo, distances st, finishTimes st)
  | None => None
  end.

(** The tick a precise finish time falls in; the sentinel [-1] stays. *)
Definition tickOf (f : Z) : Z :=
  if f =? -1 then -1 else (f - 1) / FINISH_TIME_PRECISION.

(** ** Proof-side views *)

(** [accumulateStats] as the list of its [for (const lane of ...)] loops:
    a credit kind, the band's lanes and the value added to each. *)
Definition Step : Type := (Credit * list nat * Q)%type.

Fixpoint runSteps (ps : list Step) (stats : list LaneStats)
    : option (list LaneStats) :=
  match ps with
  | [] => Some stats
  | (k, ls, v) :: ps' => st <- forEachLane k v ls stats ;; runSteps ps' st
  end.

Definition plan (fo : FinishOrder) : list Step :=
  let c1 := count (first fo) in
  let c2 := count (second fo) in
  let c3 := count (third fo) in
  let L1 := lanes (first fo) in
  let L2 := lanes (second fo) in
  let L3 := lanes (third fo) in
  let placeRemaining := 2 - (if c1 <=? 2 then c1 else 2) in
  let showUsed1 := if c1 <=? 3 then c1 else 3 in
  let showRemaining1 := 3 - showUsed1 in
  let showUsed2 :=
    if (0 <? showRemaining1) && (0 <? c2) then
      (if c2 <=? showRemaining1 then showUsed1 + c2 else 3)
    else showUsed1 in
  let showRemaining2 := 3 - showUsed2 in
  [(Win, L1, (1 / zq c1)%Q)] ++
  [(Place, L1, if c1 <=? 2 then 1%Q else (zq 2 / zq c1)%Q)] ++
  (if (0 <? placeRemaining) && (0 <? c2) then
     [(Place, L2, if c2 <=? placeRemaining then 1%Q
                  else (zq placeRemaining / zq c2)%Q)]
   else []) ++
  [(Show, L1, if c1 <=? 3 then 1%Q else (zq 3 / zq c1)%Q)] ++
  (if (0 <? showRemaining1) && (0 <? c2) then
     [(Show, L2, if c2 <=? showRemaining1 then 1%Q
                 else (zq showRemaining1 / zq c2)%Q)]
   else []) ++
  (if (0 <? showRemaining2) && (0 <? c3) then
     [(Show, L3, if c3 <=? showRemaining2 then 1%Q
                 else (zq showRemaining2 / zq c3)%Q)]
   else []).

Definition Credit_eqb (a b : Credit) : bool :=
  match a, b with
  | Win, Win | Place, Place | Show, Show => true
  | _, _ => false
  end.

(** Credit of kind [k] handed out by [ps] in total. *)
Fixpoint total (k : Credit) (ps : list Step) : Q :=
  match ps with
  | [] => 0%Q
  | (k', ls, v) :: ps' =>
      ((if Credit_eqb k k' then zq (Z.of_nat (length ls)) * v else 0)
       + total k ps')%Q
  end.

(** A band of [n] counted lanes listing [m] copies of lane 0: [total] and
    the credit of one lane depend on the counts and on how often that lane
    is listed only. *)
Definition bandN (n : Z) (m : nat) : Band := mkBand (repeat 0%nat m) n.

Definition planTotal (k : Credit) (n1 n2 n3 : Z) (m1 m2 m3 : nat) : Q :=
  total k (plan (mkOrder (bandN n1 m1) (bandN n2 m2) (bandN n3 m3))).

(** The band sizes [calculateFinishOrder] can produce from six lanes. *)
Definition shapeb (n1 n2 n3 : Z) : bool :=
  (1 <=? n1) && (0 <=? n2) && (0 <=? n3) && (n1 + n2 + n3 <=? 6)
  && (negb (n1 =? 1) || (1 <=? n2))
  && (negb ((n1 =? 1) && (n2 =? 1)) || (1 <=? n3))
  && (negb (n1 =? 2) || ((n2 =? 0) && (1 <=? n3)))
  && (negb (3 <=? n1) || ((n2 =? 0) && (n3 =? 0))).

Definition credits : list Credit := [Win; Place; Show].

Definition spots (k : Credit) : Z :=
  match k with Win => 1 | Place => 2 | Show => 3 end.

Definition range7 : list Z := map Z.of_nat (seq 0 7).

(** Every band shape hands out exactly [spots k] credit of kind [k]. *)
Definition checkTotals : bool :=
  forallb (fun n1 => forallb (fun n2 => forallb (fun n3 =>
    implb (shapeb n1 n2 n3)
      (forallb (fun k =>
         Qeq_bool (planTotal k n1 n2 n3 (Z.to_nat n1) (Z.to_nat n2) (Z.to_nat n3))
                  (zq (spots k))) credits))
    range7) range7) range7.

(** A lane listed in at most one band gets between 0 and 1 credit of each
    kind. *)
Definition checkLane : bool :=
  forallb (fun n1 => forallb (fun n2 => forallb (fun n3 =>
    forallb (fun m =>
      let '(m1, m2, m3) := m in
      forallb (fun k =>
        Qle_bool 0 (planTotal k n1 n2 n3 m1 m2 m3)
        && Qle_bool (planTotal k n1 n2 n3 m1 m2 m3) 1) credits)
      [(0, 0, 0); (1, 0, 0); (0, 1, 0); (0, 0, 1)]%nat)
    range7) range7) range7.

Definition sumZ (l : list Z) : Z := fold_right Z.add 0 l.

Definition sumCredit (k : Credit) (stats : list LaneStats) : Q :=
  fold_right (fun s acc => credit k s + acc)%Q 0%Q stats.

Definition isThrow (o : Outcome) : bool :=
  match o with Throw _ => true | Return _ => false end.

(** [Number.isFinite(samples) && samples > 0] *)
Definition samplesOk (samples : num) : Prop :=
  match samples with Fin q => (0 < q)%Q | _ => False end.

Definition bpsOf (k : Credit) (r : Result) : list Z :=
  match k with
  | Win => winProbBps r
  | Place => placeProbBps r
  | Show => showProbBps r
  end.

(** Lengths, range and sum tolerance of one basis-point array. *)
Definition bpsArrayOk (a : list Z) (target : Z) : Prop :=
  length a = 6%nat /\ Forall (fun b => 0 <= b <= 10000) a
  /\ Z.abs (sumZ a - target) <= 3.

Definition d0 : LaneStats := mkStats 0 0 0.

(** How often lane [i] is listed in [ls]. *)
Definition occ (ls : list nat) (i : nat) : Q :=
  zq (Z.of_nat (count_occ Nat.eq_dec ls i)).

(** Credit of kind [k] handed to lane [i] by [ps]. *)
Fixpoint contrib (k : Credit) (i : nat) (ps : list Step) : Q :=
  match ps with
  | [] => 0%Q
  | (k', ls, v) :: ps' =>
      ((if Credit_eqb k k' then occ ls i * v else 0) + contrib k i ps')%Q
  end.

Definition stepShape (p : Step) : Credit * nat * Q :=
  let '(k, ls, v) := p in (k, length ls, v).

(** Lane [i]'s part of a step: lane 0 listed as often as [i] was. *)
Definition laneStep_of (i : nat) (p : Step) : Step :=
  let '(k, ls, v) := p in (k, repeat 0%nat (count_occ Nat.eq_dec ls i), v).

(** What the resolver guarantees about its three bands. *)
Definition bandsOk (fo : FinishOrder) : Prop :=
  let L1 := lanes (first fo) in
  let L2 := lanes (second fo) in
  let L3 := lanes (third fo) in
  count (first fo) = Z.of_nat (length L1)
  /\ count (second fo) = Z.of_nat (length L2)
  /\ count (third fo) = Z.of_nat (length L3)
  /\ NoDup (L1 ++ L2 ++ L3)
  /\ (forall l, In l (L1 ++ L2 ++ L3) -> (l < 6)%nat)
  /\ shapeb (count (first fo)) (count (second fo)) (count (third fo)) = true.

(** ** Views used by the further properties *)
Definition checkOrder : bool :=
  forallb (fun n1 => forallb (fun n2 => forallb (fun n3 =>
    implb (shapeb n1 n2 n3)
    (forallb (fun m =>
      let '(m1, m2, m3) := m in
      Qle_bool (planTotal Win n1 n2 n3 m1 m2 m3) (planTotal Place n1 n2 n3 m1 m2 m3)
      && Qle_bool (planTotal Place n1 n2 n3 m1 m2 m3) (planTotal Show n1 n2 n3 m1 m2 m3))
      [(0, 0, 0); (1, 0, 0); (0, 1, 0); (0, 0, 1)]%nat))
    range7) range7) range7.

Definition laneOrdered (st : list LaneStats) : Prop :=
  length st = 6%nat /\
  forall i, (i < 6)%nat ->
    (winCredits (nth i st d0) <= placeCredits (nth i st d0)
     <= showCredits (nth i st d0))%Q.

Definition laneDone (T d f : Z) : Prop :=
  (f = -1 /\ d < TRACK_LENGTH)
  \/ (TRACK_LENGTH <= d /\ 0 <= f <= T * FINISH_TIME_PRECISION).

Definition raceInv (T : Z) (st : RaceState) : Prop :=
  length (distances st) = 6%nat /\ length (finishTimes st) = 6%nat
  /\ forall i, (i < 6)%nat ->
       laneDone T (nth i (distances st) 0) (nth i (finishTimes st) 0).

Definition seedAt (x : Z) (k : nat) : Z :=
  snd (splitmix32Next (x + Z.of_nat k * 0x9e3779b9)).

Definition rngOk (g : FastRng) : Prop :=
  0 <= s0 g < 2 ^ 32 /\ 0 <= s1 g < 2 ^ 32 /\ 0 <= s2 g < 2 ^ 32
  /\ 0 <= s3 g < 2 ^ 32
  /\ (s0 g <> 0 \/ s1 g <> 0 \/ s2 g <> 0 \/ s3 g <> 0).

Definition timeLe (a b : Entry) : Prop := time a <= time b.

Definition ticksRel (n o : RaceState) : Prop :=
  rng n = rng o /\ distances n = distances o
  /\ length (finishTimes n) = 6%nat /\ length (finishTimes o) = 6%nat
  /\ forall i, (i < 6)%nat ->
       (nth i (finishTimes n) 0 = -1 \/ 1 <= nth i (finishTimes n) 0)
       /\ nth i (finishTimes o) 0 = tickOf (nth i (finishTimes n) 0).

(** * Lemmas *)

Lemma list_set_length {A} (i : nat) (v : A) (xs : list A) :
  length (list_set i v xs) = length xs.
Proof.
  revert i; induction xs as [|x xs IH]; intros [|i]; simpl; auto.
Qed.

Lemma nth_list_set {A} (i j : nat) (v : A) (xs : list A) (d : A) :
  (i < length xs)%nat ->
  nth j (list_set i v xs) d = if Nat.eqb i j then v else nth j xs d.
Proof.
  revert i j; induction xs as [|x xs IH]; intros [|i] [|j] H; simpl in *;
    try lia; auto.
  apply IH; lia.
Qed.

Lemma credit_addCredit (k k' : Credit) (v : Q) (s : LaneStats) :
  (credit k' (addCredit k v s) == credit k' s + if Credit_eqb k' k then v else 0)%Q.
Proof. destruct k, k'; simpl; ring. Qed.

Lemma sumCredit_list_set (k : Credit) (l : nat) (x : LaneStats)
    (st : list LaneStats) :
  (l < length st)%nat ->
  (sumCredit k (list_set l x st)
   == sumCredit k st - credit k (nth l st d0) + credit k x)%Q.
Proof.
  revert l; induction st as [|s st IH]; intros [|l] H; simpl in *; try lia.
  - ring.
  - rewrite IH by lia. ring.
Qed.

Lemma zq_S (n : nat) : (zq (Z.of_nat (S n)) == 1 + zq (Z.of_nat n))%Q.
Proof. unfold zq. rewrite Nat2Z.inj_succ, <- Z.add_1_l, inject_Z_plus. reflexivity. Qed.

Lemma forEachLane_ok (k : Credit) (v : Q) (ls : list nat)
    (st : list LaneStats) :
  (forall l, In l ls -> (l < length st)%nat) ->
  exists st', forEachLane k v ls st = Some st'
    /\ length st' = length st
    /\ (forall k' i, (i < length st)%nat ->
          credit k' (nth i st' d0)
          == credit k' (nth i st d0)
             + if Credit_eqb k' k then occ ls i * v else 0)%Q
    /\ (forall k', sumCredit k' st'
          == sumCredit k' st
             + if Credit_eqb k' k then zq (Z.of_nat (length ls)) * v else 0)%Q.
Proof.
  revert st; induction ls as [|l ls IH]; intros st Hin.
  - exists st; simpl; repeat split; auto.
    + intros k' i _; destruct (Credit_eqb k' k); unfold occ, zq; simpl; ring.
    + intros k'; destruct (Credit_eqb k' k); unfold zq; simpl; ring.
  - assert (Hl : (l < length st)%nat) by (apply Hin; left; auto).
    destruct (IH (list_set l (addCredit k v (nth l st d0)) st)) as
        (st' & Hrun & Hlen & Hlane & Hsum).
    { intros l' H'. rewrite list_set_length. apply Hin. right; auto. }
    exists st'. simpl.
    unfold bumpLane.
    rewrite (nth_error_nth' st d0 Hl). simpl.
    rewrite list_set_length in Hlen, Hlane.
    repeat split; auto.
    + intros k' i Hi. rewrite Hlane by auto.
      rewrite nth_list_set by auto.
      unfold occ; simpl count_occ.
      destruct (Nat.eq_dec l i) as [->|Hne].
      * rewrite Nat.eqb_refl, credit_addCredit.
        destruct (Credit_eqb k' k); [rewrite zq_S|]; ring.
      * apply Nat.eqb_neq in Hne as Hne'. rewrite Hne'. ring.
    + intros k'. rewrite Hsum, sumCredit_list_set by auto.
      rewrite credit_addCredit.
      change (Z.pos (Pos.of_succ_nat (length ls))) with (Z.of_nat (S (length ls))).
      destruct (Credit_eqb k' k); [rewrite zq_S|]; ring.
Qed.

Lemma runSteps_ok (ps : list Step) (st : list LaneStats) :
  (forall k ls v, In (k, ls, v) ps -> forall l, In l ls -> (l < length st)%nat) ->
  exists st', runSteps ps st = Some st'
    /\ length st' = length st
    /\ (forall k i, (i < length st)%nat ->
          credit k (nth i st' d0) == credit k (nth i st d0) + contrib k i ps)%Q
    /\ (forall k, sumCredit k st' == sumCredit k st + total k ps)%Q.
Proof.
  revert st; induction ps as [|[[k ls] v] ps IH]; intros st Hin.
  - exists st; simpl; repeat split; auto; intros; ring.
  - destruct (forEachLane_ok k v ls st) as (st1 & H1 & Hlen1 & Hlane1 & Hsum1).
    { intros l Hl. eapply Hin; [left; reflexivity | exact Hl]. }
    destruct (IH st1) as (st2 & H2 & Hlen2 & Hlane2 & Hsum2).
    { intros k' ls' v' H' l Hl. rewrite Hlen1.
      eapply Hin; [right; exact H' | exact Hl]. }
    exists st2; simpl; rewrite H1; simpl.
    repeat split; auto.
    + congruence.
    + intros k' i Hi. rewrite Hlane2 by congruence. rewrite Hlane1 by auto.
      destruct k, k'; simpl; ring.
    + intros k'. rewrite Hsum2, Hsum1. destruct k, k'; simpl; ring.
Qed.

Ltac no_if t :=
  lazymatch t with context [if _ then _ else _] => fail | _ => idtac end.

Ltac split_branches :=
  repeat (unfold obind; cbn [runSteps app andb];
          match goal with
          | |- context [Z.leb ?a ?b] =>
              no_if a; no_if b; destruct (Z.leb_spec a b); try (exfalso; lia)
          | |- context [Z.ltb ?a ?b] =>
              no_if a; no_if b; destruct (Z.ltb_spec a b); try (exfalso; lia)
          | |- context [match forEachLane ?k ?v ?l ?s with _ => _ end] =>
              destruct (forEachLane k v l s)
          end); cbn [runSteps app andb]; try reflexivity.

Lemma accumulateStats_plan (st : list LaneStats) (fo : FinishOrder) :
  accumulateStats st fo = runSteps (plan fo) st.
Proof.
  unfold accumulateStats, plan. split_branches.
Qed.

Lemma total_shape (k : Credit) (ps ps' : list Step) :
  map stepShape ps = map stepShape ps' -> total k ps = total k ps'.
Proof.
  revert ps'; induction ps as [|[[k1 l1] v1] ps IH]; intros [|[[k2 l2] v2] ps'] H;
    simpl in *; try discriminate; auto.
  injection H as -> Hl -> Hr. rewrite Hl, (IH ps' Hr). reflexivity.
Qed.

Lemma contrib_total (k : Credit) (i : nat) (ps : list Step) :
  contrib k i ps = total k (map (laneStep_of i) ps).
Proof.
  induction ps as [|[[k' ls] v] ps IH]; simpl; auto.
  rewrite IH, repeat_length. reflexivity.
Qed.

Ltac split_cmp :=
  repeat (cbn [andb app map stepShape laneStep_of];
          match goal with
          | |- context [Z.leb ?a ?b] =>
              no_if a; no_if b; destruct (Z.leb_spec a b); try (exfalso; lia)
          | |- context [Z.ltb ?a ?b] =>
              no_if a; no_if b; destruct (Z.ltb_spec a b); try (exfalso; lia)
          end).

Lemma total_plan (k : Credit) (fo : FinishOrder) :
  total k (plan fo)
  = planTotal k (count (first fo)) (count (second fo)) (count (third fo))
      (length (lanes (first fo))) (length (lanes (second fo)))
      (length (lanes (third fo))).
Proof.
  unfold planTotal. apply total_shape.
  unfold plan; cbn [bandN lanes count first second third].
  split_cmp; cbn [map stepShape laneStep_of]; rewrite ?repeat_length; reflexivity.
Qed.

Lemma contrib_plan (k : Credit) (i : nat) (fo : FinishOrder) :
  contrib k i (plan fo)
  = planTotal k (count (first fo)) (count (second fo)) (count (third fo))
      (count_occ Nat.eq_dec (lanes (first fo)) i)
      (count_occ Nat.eq_dec (lanes (second fo)) i)
      (count_occ Nat.eq_dec (lanes (third fo)) i).
Proof.
  rewrite contrib_total. unfold planTotal. apply total_shape.
  unfold plan; cbn [bandN lanes count first second third].
  split_cmp; cbn [map stepShape laneStep_of]; rewrite ?repeat_length; reflexivity.
Qed.

Lemma in_range7 (n : Z) : 0 <= n <= 6 -> In n range7.
Proof.
  intros H. unfold range7. replace n with (Z.of_nat (Z.to_nat n)) by lia.
  apply in_map, in_seq. lia.
Qed.

Lemma checkTotals_true : checkTotals = true.
Proof. vm_compute. reflexivity. Qed.

Lemma checkLane_true : checkLane = true.
Proof. vm_compute. reflexivity. Qed.

Lemma shapeb_bounds (n1 n2 n3 : Z) :
  shapeb n1 n2 n3 = true -> 1 <= n1 /\ 0 <= n2 /\ 0 <= n3 /\ n1 + n2 + n3 <= 6.
Proof.
  unfold shapeb. intros H.
  repeat rewrite andb_true_iff in H.
  destruct H as [[[[[[[H1 H2] H3] H4] _] _] _] _].
  apply Z.leb_le in H1, H2, H3, H4. lia.
Qed.

Lemma planTotal_spots (k : Credit) (n1 n2 n3 : Z) :
  shapeb n1 n2 n3 = true ->
  (planTotal k n1 n2 n3 (Z.to_nat n1) (Z.to_nat n2) (Z.to_nat n3) == zq (spots k))%Q.
Proof.
  intros Hs. pose proof (shapeb_bounds _ _ _ Hs) as Hb.
  pose proof checkTotals_true as C. unfold checkTotals in C.
  rewrite forallb_forall in C. specialize (C n1 ltac:(apply in_range7; lia)).
  rewrite forallb_forall in C. specialize (C n2 ltac:(apply in_range7; lia)).
  rewrite forallb_forall in C. specialize (C n3 ltac:(apply in_range7; lia)).
  rewrite Hs in C. cbn [implb] in C.
  rewrite forallb_forall in C.
  apply Qeq_bool_iff, C. destruct k; simpl; auto.
Qed.

Lemma planTotal_lane (k : Credit) (n1 n2 n3 : Z) (m1 m2 m3 : nat) :
  0 <= n1 <= 6 -> 0 <= n2 <= 6 -> 0 <= n3 <= 6 -> (m1 + m2 + m3 <= 1)%nat ->
  (0 <= planTotal k n1 n2 n3 m1 m2 m3 <= 1)%Q.
Proof.
  intros H1 H2 H3 Hm.
  pose proof checkLane_true as C. unfold checkLane in C.
  rewrite forallb_forall in C. specialize (C n1 ltac:(apply in_range7; lia)).
  rewrite forallb_forall in C. specialize (C n2 ltac:(apply in_range7; lia)).
  rewrite forallb_forall in C. specialize (C n3 ltac:(apply in_range7; lia)).
  rewrite forallb_forall in C. specialize (C (m1, m2, m3)).
  assert (Hin : In (m1, m2, m3) [(0, 0, 0); (1, 0, 0); (0, 1, 0); (0, 0, 1)]%nat).
  { destruct m1 as [|[|m1]]; destruct m2 as [|[|m2]]; destruct m3 as [|[|m3]];
    simpl; try lia; tauto. }
  specialize (C Hin). rewrite forallb_forall in C.
  assert (Hk : In k credits) by (destruct k; simpl; auto).
  specialize (C k Hk). apply andb_true_iff in C as [Ca Cb].
  apply Qle_bool_iff in Ca, Cb. split; auto.
Qed.

Lemma insertEntry_perm (x : Entry) (l : list Entry) :
  Permutation (insertEntry x l) (x :: l).
Proof.
  induction l as [|y l IH]; simpl; auto.
  destruct (cmpEntry x y <=? 0); auto.
  rewrite IH. apply perm_swap.
Qed.

Lemma sortEntries_perm (l : list Entry) : Permutation (sortEntries l) l.
Proof.
  induction l as [|x l IH]; simpl; auto.
  rewrite insertEntry_perm. auto.
Qed.

Lemma mkEntries_lanes_from (ft ds : list Z) (start : nat) :
  map (fun p => lane (mkEntry (snd p) (fst p) (nth_error ds (snd p))))
      (combine ft (seq start (length ft)))
  = seq start (length ft).
Proof.
  revert start; induction ft as [|t ft IH]; intros start; simpl; auto.
  f_equal. apply IH.
Qed.

Lemma mkEntries_lanes (ft ds : list Z) :
  map lane (mkEntries ft ds) = seq 0 (length ft).
Proof.
  unfold mkEntries. rewrite map_map. apply mkEntries_lanes_from.
Qed.

Lemma groupBy_concat (cur : Group) (rest : list Entry) :
  concat (map glanes (groupBy cur rest)) = glanes cur ++ map lane rest.
Proof.
  revert cur; induction rest as [|e rest IH]; intros cur; simpl.
  - rewrite app_nil_r. reflexivity.
  - destruct (time e =? gtime cur); simpl; rewrite IH; simpl.
    + rewrite <- app_assoc. reflexivity.
    + reflexivity.
Qed.

Lemma groupBy_nonempty (cur : Group) (rest : list Entry) :
  glanes cur <> [] -> Forall (fun g => glanes g <> []) (groupBy cur rest).
Proof.
  revert cur; induction rest as [|e rest IH]; intros cur Hc; simpl.
  - constructor; auto.
  - destruct (time e =? gtime cur).
    + apply IH. simpl. destruct (glanes cur); simpl; discriminate.
    + constructor; auto. apply IH. simpl. discriminate.
Qed.

Lemma assignPositions_done (position : Z) (gs : list Group) (fo : FinishOrder) :
  3 <= position -> assignPositions position gs fo = fo.
Proof.
  intros H. destruct gs as [|g gs]; simpl; auto.
  destruct (Z.eqb_spec position 0); try lia.
  destruct (Z.eqb_spec position 1); try lia.
  destruct (Z.eqb_spec position 2); try lia.
  destruct (Z.leb_spec 3 position); try lia. reflexivity.
Qed.

Lemma shapeb_intro (n1 n2 n3 : Z) :
  1 <= n1 -> 0 <= n2 -> 0 <= n3 -> n1 + n2 + n3 <= 6 ->
  (n1 = 1 -> 1 <= n2) -> (n1 = 1 -> n2 = 1 -> 1 <= n3) ->
  (n1 = 2 -> n2 = 0 /\ 1 <= n3) -> (3 <= n1 -> n2 = 0 /\ n3 = 0) ->
  shapeb n1 n2 n3 = true.
Proof.
  intros. unfold shapeb.
  repeat match goal with
         | |- context [Z.leb ?a ?b] => destruct (Z.leb_spec a b)
         | |- context [Z.eqb ?a ?b] => destruct (Z.eqb_spec a b)
         end; simpl; try reflexivity; exfalso; lia.
Qed.

Ltac all_bands :=
  split; [eexists; reflexivity |];
  repeat split;
  try reflexivity;
  try (apply shapeb_intro; simpl; lia).

Lemma assignPositions_0 (g : Group) (gs : list Group) (fo : FinishOrder) :
  assignPositions 0 (g :: gs) fo
  = assignPositions (Z.of_nat (length (glanes g))) gs
      (mkOrder (bandOf g) (second fo) (third fo)).
Proof. reflexivity. Qed.

Lemma assignPositions_1 (g : Group) (gs : list Group) (fo : FinishOrder) :
  assignPositions 1 (g :: gs) fo
  = assignPositions (1 + Z.of_nat (length (glanes g))) gs
      (mkOrder (first fo) (bandOf g) (third fo)).
Proof. reflexivity. Qed.

Lemma assignPositions_2 (g : Group) (gs : list Group) (fo : FinishOrder) :
  assignPositions 2 (g :: gs) fo
  = assignPositions (2 + Z.of_nat (length (glanes g))) gs
      (mkOrder (first fo) (second fo) (bandOf g)).
Proof. reflexivity. Qed.

Lemma assignPositions_bands (gs : list Group) :
  Forall (fun g => glanes g <> []) gs ->
  length (concat (map glanes gs)) = 6%nat ->
  let fo := assignPositions 0 gs (mkOrder emptyBand emptyBand emptyBand) in
  (exists rest, lanes (first fo) ++ lanes (second fo) ++ lanes (third fo) ++ rest
                = concat (map glanes gs))
  /\ count (first fo) = Z.of_nat (length (lanes (first fo)))
  /\ count (second fo) = Z.of_nat (length (lanes (second fo)))
  /\ count (third fo) = Z.of_nat (length (lanes (third fo)))
  /\ shapeb (count (first fo)) (count (second fo)) (count (third fo)) = true.
Proof.
  intros Hne Hlen fo. subst fo.
  destruct gs as [|g1 gs]; [simpl in Hlen; lia|].
  inversion Hne as [|? ? Hg1 Hne1]; subst.
  assert (L1 : (1 <= length (glanes g1))%nat)
    by (destruct (glanes g1); simpl; [congruence | lia]).
  simpl in Hlen. rewrite length_app in Hlen.
  rewrite assignPositions_0.
  destruct (Nat.le_gt_cases 3 (length (glanes g1))) as [G3|G3].
  { (* three or more tied for first *)
    rewrite assignPositions_done by lia. cbn.
    all_bands. }
  destruct gs as [|g2 gs]; [simpl in Hlen; lia|].
  inversion Hne1 as [|? ? Hg2 Hne2]; subst.
  assert (L2 : (1 <= length (glanes g2))%nat)
    by (destruct (glanes g2); simpl; [congruence | lia]).
  simpl in Hlen. rewrite length_app in Hlen.
  destruct (Nat.eq_dec (length (glanes g1)) 2) as [E2|E2].
  { (* two tied for first: the next group is third *)
    rewrite E2. change (Z.of_nat 2) with 2.
    rewrite assignPositions_2, assignPositions_done by lia. cbn.
    all_bands. }
  assert (E1 : length (glanes g1) = 1%nat) by lia.
  rewrite E1. change (Z.of_nat 1) with 1. rewrite assignPositions_1.
  destruct (Nat.le_gt_cases 2 (length (glanes g2))) as [G2|G2].
  { rewrite assignPositions_done by lia. cbn.
    all_bands. }
  assert (E1' : length (glanes g2) = 1%nat) by lia.
  rewrite E1'. change (1 + Z.of_nat 1) with 2.
  destruct gs as [|g3 gs]; [simpl in Hlen; lia|].
  inversion Hne2 as [|? ? Hg3 Hne3]; subst.
  assert (L3 : (1 <= length (glanes g3))%nat)
    by (destruct (glanes g3); simpl; [congruence | lia]).
  simpl in Hlen. rewrite length_app in Hlen.
  rewrite assignPositions_2, assignPositions_done by lia. cbn.
  all_bands.
Qed.

Lemma mkEntries_length (ft ds : list Z) : length (mkEntries ft ds) = length ft.
Proof.
  unfold mkEntries. rewrite length_map, length_combine, length_seq. lia.
Qed.

Lemma calculateFinishOrder_bands (ft ds : list Z) :
  length ft = 6%nat ->
  exists fo, calculateFinishOrder ft ds = Some fo /\ bandsOk fo.
Proof.
  intros Hl. unfold calculateFinishOrder.
  pose proof (sortEntries_perm (mkEntries ft ds)) as P.
  pose proof (Permutation_map lane P) as PL.
  rewrite mkEntries_lanes, Hl in PL.
  pose proof (Permutation_length PL) as PLn. rewrite length_map, length_seq in PLn.
  destruct (sortEntries (mkEntries ft ds)) as [|e0 rest] eqn:ES;
    [simpl in PLn; lia|].
  eexists; split; [reflexivity|].
  assert (C : concat (map glanes (groupBy (mkGroup (time e0) [lane e0]) rest))
              = map lane (e0 :: rest)) by (rewrite groupBy_concat; reflexivity).
  destruct (assignPositions_bands (groupBy (mkGroup (time e0) [lane e0]) rest))
    as [[rest' Hp] [H1 [H2 [H3 H4]]]].
  - apply groupBy_nonempty. simpl. discriminate.
  - rewrite C, length_map. simpl in PLn |- *. lia.
  - rewrite C in Hp.
    assert (ND : NoDup (map lane (e0 :: rest)))
      by (eapply Permutation_NoDup; [symmetry; exact PL | apply seq_NoDup]).
    rewrite <- Hp in ND.
    unfold bandsOk; cbv zeta. repeat split; auto.
    + rewrite !app_assoc in ND. rewrite !app_assoc.
      eapply NoDup_app_remove_r. exact ND.
    + intros l Hin.
      assert (Hin' : In l (map lane (e0 :: rest))).
      { rewrite <- Hp. rewrite !in_app_iff in *. tauto. }
      apply (Permutation_in _ PL) in Hin'. apply in_seq in Hin'. lia.
Qed.

Lemma moveLane_lengths (t : Z) (bps : list Z) (st : RaceState) (a : nat) :
  length (distances (moveLane t bps st a)) = length (distances st)
  /\ length (finishTimes (moveLane t bps st a)) = length (finishTimes st).
Proof.
  unfold moveLane. destruct (laneStep (rng st) (nth a bps 0)) as [r sp].
  cbn [distances finishTimes]. rewrite list_set_length. split; auto.
  destruct (_ && _); auto using list_set_length.
Qed.

Lemma tick_lengths (t : Z) (bps : list Z) (st : RaceState) :
  length (distances (tick t bps st)) = length (distances st)
  /\ length (finishTimes (tick t bps st)) = length (finishTimes st).
Proof.
  unfold tick. generalize (seq 0 LANE_COUNT). intros l. revert st.
  induction l as [|a l IH]; intros st; simpl; auto.
  destruct (IH (moveLane t bps st a)) as [H1 H2].
  destruct (moveLane_lengths t bps st a) as [H3 H4]. split; congruence.
Qed.

Lemma race_lengths (fuel : nat) (t : Z) (bps : list Z) (st : RaceState) :
  length (distances (race fuel t bps st)) = length (distances st)
  /\ length (finishTimes (race fuel t bps st)) = length (finishTimes st).
Proof.
  revert t st; induction fuel as [|fuel IH]; intros t st; simpl; auto.
  destruct (allFinished (distances st)); auto.
  destruct (IH (t + 1) (tick t bps st)) as [H1 H2].
  destruct (tick_lengths t bps st) as [H3 H4]. split; congruence.
Qed.

Lemma simulateFullRace_ok (seed : Z) (scores : list num) :
  exists fo ds ft, simulateFullRace seed scores = Some (fo, ds, ft) /\ bandsOk fo.
Proof.
  unfold simulateFullRace.
  match goal with |- context [race ?f ?t ?b ?s] =>
    destruct (race_lengths f t b s) as [_ Hft];
    destruct (race f t b s) as [r ds ft] end.
  cbn [finishTimes distances] in *. rewrite repeat_length in Hft.
  destruct (calculateFinishOrder_bands ft ds Hft) as (fo & -> & Hb).
  eauto.
Qed.

Lemma plan_lanes (fo : FinishOrder) :
  Forall (fun p : Step => let '(_, ls, _) := p in
            ls = lanes (first fo) \/ ls = lanes (second fo) \/ ls = lanes (third fo))
         (plan fo).
Proof.
  unfold plan; cbv zeta. rewrite !Forall_app.
  repeat split;
  repeat match goal with |- Forall _ (if ?b then _ else _) => destruct b end;
  try apply Forall_nil; apply Forall_cons; simpl; auto.
Qed.

Lemma count_occ_bands (fo : FinishOrder) (i : nat) :
  bandsOk fo ->
  (count_occ Nat.eq_dec (lanes (first fo)) i + count_occ Nat.eq_dec (lanes (second fo)) i
   + count_occ Nat.eq_dec (lanes (third fo)) i <= 1)%nat.
Proof.
  intros (_ & _ & _ & ND & _ & _).
  apply (NoDup_count_occ Nat.eq_dec) with (x := i) in ND.
  rewrite !count_occ_app in ND. lia.
Qed.

(** One call of [accumulateStats] on the resolver's bands. *)
Lemma accumulateStats_ok (st : list LaneStats) (fo : FinishOrder) :
  bandsOk fo -> length st = 6%nat ->
  exists st', accumulateStats st fo = Some st'
    /\ length st' = 6%nat
    /\ (forall k i, (i < 6)%nat ->
          credit k (nth i st' d0) == credit k (nth i st d0) + contrib k i (plan fo))%Q
    /\ (forall k i, 0 <= contrib k i (plan fo) <= 1)%Q
    /\ (forall k, sumCredit k st' == sumCredit k st + zq (spots k))%Q.
Proof.
  intros Hb Hl. pose proof Hb as (E1 & E2 & E3 & ND & Hlt & Hs).
  pose proof (shapeb_bounds _ _ _ Hs) as Hbd.
  rewrite accumulateStats_plan.
  destruct (runSteps_ok (plan fo) st) as (st' & Hr & Hlen & Hlane & Hsum).
  { intros k ls v Hin l Hl'. rewrite Hl.
    pose proof (proj1 (Forall_forall _ _) (plan_lanes fo) _ Hin) as Hls.
    cbv beta iota in Hls.
    apply Hlt. rewrite !in_app_iff.
    destruct Hls as [->|[->| ->]]; auto. }
  exists st'. rewrite Hl in Hlen, Hlane.
  split; [auto|]. split; [auto|]. split; [auto|]. split.
  - intros k i. rewrite contrib_plan. apply planTotal_lane; try lia.
    apply count_occ_bands; auto.
  - intros k. rewrite Hsum, total_plan.
    replace (length (lanes (first fo))) with (Z.to_nat (count (first fo))) by lia.
    replace (length (lanes (second fo))) with (Z.to_nat (count (second fo))) by lia.
    replace (length (lanes (third fo))) with (Z.to_nat (count (third fo))) by lia.
    rewrite planTotal_spots by auto. reflexivity.
Qed.


Lemma zq_add (a b : Z) : zq (a + b) = (zq a + zq b)%Q.
Proof. unfold zq. apply inject_Z_plus. Qed.

(** The sample loop never fails, records one call per iteration with the
    clamped scores, and after [j] accumulations each lane holds between 0
    and [j] credits of each kind, [j * spots k] in all. *)
Lemma runSamples_ok (n : nat) : forall (x : Z) (clamped : list Z)
    (stats : list LaneStats) (j : Z),
  length stats = 6%nat ->
  (forall k i, (i < 6)%nat -> 0 <= credit k (nth i stats d0) <= zq j)%Q ->
  (forall k, sumCredit k stats == zq j * zq (spots k))%Q ->
  exists calls st, runSamples n x clamped stats = (calls, Some st)
    /\ length calls = n
    /\ Forall (fun c => snd c = clamped) calls
    /\ length st = 6%nat
    /\ (forall k i, (i < 6)%nat ->
          0 <= credit k (nth i st d0) <= zq (j + Z.of_nat n))%Q
    /\ (forall k, sumCredit k st == zq (j + Z.of_nat n) * zq (spots k))%Q.
Proof.
  induction n as [|n IH]; intros x clamped stats j Hl Hb Hs.
  - exists [], stats. simpl. rewrite Z.add_0_r. repeat split; auto.
    + apply Hb; auto.
    + apply Hb; auto.
  - cbn [runSamples]. destruct (splitmix32Next x) as [x' seed].
    destruct (simulateFullRace_ok seed (map numOfZ clamped)) as (fo & ds & ft & -> & Hfo).
    destruct (accumulateStats_ok stats fo Hfo Hl)
      as (st1 & -> & Hl1 & Hlane1 & Hc1 & Hs1).
    destruct (IH x' clamped st1 (j + 1)) as (calls & st & -> & Hn & Hf & Hl2 & Hb2 & Hs2);
      auto.
    + intros k i Hi. rewrite Hlane1 by auto.
      specialize (Hb k i Hi). specialize (Hc1 k i). rewrite zq_add.
      change (zq 1) with 1%Q. split; lra.
    + intros k. rewrite Hs1, Hs, zq_add. change (zq 1) with 1%Q. ring.
    + exists ((seed, clamped) :: calls), st.
      replace (j + Z.of_nat (S n)) with (j + 1 + Z.of_nat n) by lia.
      repeat split; simpl; auto.
      * apply Hb2; auto.
      * apply Hb2; auto.
Qed.

(** [Math.round] as [fmtBps] stays within half a basis point. *)
Lemma fmtBps_bounds (p : Q) :
  (p * 10000 - (1 # 2) <= zq (fmtBps p) <= p * 10000 + (1 # 2))%Q.
Proof.
  unfold fmtBps, zq.
  pose proof (Qfloor_le (p * 10000 + (1 # 2))) as H1.
  pose proof (Qlt_floor (p * 10000 + (1 # 2))) as H2.
  rewrite inject_Z_plus in H2. unfold inject_Z at 2 in H2.
  split; lra.
Qed.

Lemma fmtBps_mono (p p' : Q) : (p <= p')%Q -> fmtBps p <= fmtBps p'.
Proof.
  intros H. unfold fmtBps. apply Qfloor_resp_le. lra.
Qed.

Lemma fmtBps_range (p : Q) : (0 <= p <= 1)%Q -> 0 <= fmtBps p <= 10000.
Proof.
  intros [H0 H1].
  pose proof (fmtBps_mono _ _ H0). pose proof (fmtBps_mono _ _ H1).
  change (fmtBps 0) with 0 in *. change (fmtBps 1) with 10000 in *. lia.
Qed.

Lemma sumZ_fmtBps (k : Credit) (q : Q) (st : list LaneStats) :
  (sumCredit k st * / q * 10000 - zq (Z.of_nat (length st)) * (1 # 2)
   <= zq (sumZ (map (fun s => fmtBps (credit k s / q)) st))
   <= sumCredit k st * / q * 10000 + zq (Z.of_nat (length st)) * (1 # 2))%Q.
Proof.
  induction st as [|s st IH].
  - unfold sumCredit, sumZ; cbn [fold_right map length]. rewrite !Qmult_0_l.
    change (zq (Z.of_nat 0)) with 0%Q. change (zq 0) with 0%Q. split; lra.
  - cbn [map length].
    change (sumZ (?x :: ?l)) with (x + sumZ l).
    change (sumCredit k (s :: st)) with (credit k s + sumCredit k st)%Q.
    rewrite zq_S, zq_add.
    pose proof (fmtBps_bounds (credit k s / q)) as B.
    destruct IH as [IH1 IH2].
    assert (E : ((credit k s + sumCredit k st) * / q * 10000
                 == credit k s / q * 10000 + sumCredit k st * / q * 10000)%Q)
      by (unfold Qdiv; ring).
    rewrite E.
    set (a := (credit k s / q * 10000)%Q) in *.
    set (b := (sumCredit k st * / q * 10000)%Q) in *.
    split; lra.
Qed.

(** A valid call returns, having run [iterations samples] simulations on the
    clamped scores; the three arrays are [fmtBps] of the final credits over
    [samples]. *)
Lemma calculateProbabilities_valid (clock : Z * Z) (scores : list num) (q : Q)
    (salt : Z) :
  length scores = 6%nat -> (0 < q)%Q ->
  exists calls r st,
    calculateProbabilities clock scores (Fin q) salt = (calls, Return r)
    /\ length calls = iterations q
    /\ Forall (fun c => snd c = map clampScore scores) calls
    /\ r_scores r = map clampScore scores
    /\ length st = 6%nat
    /\ (forall k, bpsOf k r = map (fun s => fmtBps (credit k s / q)) st)
    /\ (forall k i, (i < 6)%nat ->
          0 <= credit k (nth i st d0) <= zq (Z.of_nat (iterations q)))%Q
    /\ (forall k, sumCredit k st == zq (Z.of_nat (iterations q)) * zq (spots k))%Q.
Proof.
  intros Hl Hq. unfold calculateProbabilities. rewrite Hl. cbn [negb Nat.eqb LANE_COUNT].
  destruct (Qle_bool q 0) eqn:E; [apply Qle_bool_iff in E; lra|].
  destruct (runSamples_ok (iterations q)
              (mixScores (initialSeed salt) (map clampScore scores))
              (map clampScore scores) (repeat (mkStats 0 0 0) LANE_COUNT) 0)
    as (calls & st & Hr & Hn & Hf & Hl2 & Hb & Hs).
  - reflexivity.
  - intros k i Hi. change d0 with (mkStats 0 0 0). rewrite nth_repeat.
    change (zq 0) with 0%Q. destruct k; simpl; lra.
  - intros k. destruct k; vm_compute; reflexivity.
  - rewrite Hr. rewrite Z.add_0_l in Hb, Hs.
    exists calls, (mkResult (map clampScore scores) (Fin q) (snd clock - fst clock)
                     (map (fun s => fmtBps (credit Win s / q)) st)
                     (map (fun s => fmtBps (credit Place s / q)) st)
                     (map (fun s => fmtBps (credit Show s / q)) st)), st.
    repeat split; auto.
    + intros k. destruct k; reflexivity.
    + apply Hb; auto.
    + apply Hb; auto.
Qed.

Lemma iterations_Z (n : Z) : 0 <= n -> iterations (zq n) = Z.to_nat n.
Proof.
  intros H. unfold iterations, zq. rewrite Qceiling_Z. reflexivity.
Qed.

Lemma clampScore_range (s : num) : 1 <= clampScore s <= 10.
Proof.
  destruct s as [q| | |]; simpl; try lia.
  destruct (Z.ltb_spec (Qfloor q) 1); try lia.
  destruct (Z.ltb_spec 10 (Qfloor q)); lia.
Qed.

Lemma scoreBps_formula (s : num) :
  scoreBps s = 9585 + ((clampScore s - 1) * 415) / 9.
Proof. reflexivity. Qed.

Lemma clampScore_mono (q q' : Q) :
  (q <= q')%Q -> clampScore (Fin q) <= clampScore (Fin q').
Proof.
  intros H. pose proof (Qfloor_resp_le q q' H). simpl.
  destruct (Z.ltb_spec (Qfloor q) 1), (Z.ltb_spec 10 (Qfloor q)),
    (Z.ltb_spec (Qfloor q') 1), (Z.ltb_spec 10 (Qfloor q')); lia.
Qed.

Lemma laneStep_speed (g : FastRng) (b : Z) : 1 <= snd (laneStep g b).
Proof.
  unfold laneStep. destruct (roll g SPEED_RANGE) as [g1 r].
  cbv zeta.
  match goal with |- context [let '(_, _) := ?p in _] => destruct p as [g2 q] end.
  simpl. destruct (Z.ltb_spec 0 q); lia.
Qed.

Lemma nth_moveLane (t : Z) (bps : list Z) (st : RaceState) (a i : nat) :
  (a < length (distances st))%nat ->
  nth i (distances (moveLane t bps st a)) 0
  = if Nat.eqb a i
    then nth a (distances st) 0 + snd (laneStep (rng st) (nth a bps 0))
    else nth i (distances st) 0.
Proof.
  intros H. unfold moveLane.
  destruct (laneStep (rng st) (nth a bps 0)) as [g sp]. cbn [distances snd].
  rewrite nth_list_set by auto. reflexivity.
Qed.

Lemma fold_moveLane (t : Z) (bps : list Z) (l : list nat) :
  forall st, (forall a, In a l -> (a < length (distances st))%nat) ->
  forall i, nth i (distances (fold_left (moveLane t bps) l st)) 0
            >= nth i (distances st) 0 + (if in_dec Nat.eq_dec i l then 1 else 0).
Proof.
  induction l as [|a l IH]; intros st Hl i; cbn [fold_left].
  - destruct (in_dec Nat.eq_dec i []); [contradiction|lia].
  - assert (Ha : (a < length (distances st))%nat) by (apply Hl; left; reflexivity).
    assert (Hl' : forall b, In b l -> (b < length (distances (moveLane t bps st a)))%nat).
    { intros b Hb. rewrite (proj1 (moveLane_lengths t bps st a)). apply Hl. right. exact Hb. }
    specialize (IH (moveLane t bps st a) Hl' i).
    rewrite nth_moveLane in IH by auto.
    pose proof (laneStep_speed (rng st) (nth a bps 0)).
    destruct (Nat.eqb_spec a i) as [->|Hne].
    + destruct (in_dec Nat.eq_dec i (i :: l)), (in_dec Nat.eq_dec i l); lia.
    + destruct (in_dec Nat.eq_dec i (a :: l)) as [[E|Hin]|Hnin]; [congruence| |];
        destruct (in_dec Nat.eq_dec i l) as [Hin'|Hnin']; try lia.
    contradiction.
Qed.

Lemma bias_rem (s : num) (r : Z) :
  0 <= r < 10 ->
  (Z.rem ((r + 1) * scoreBps s) 10000 = 0 <-> clampScore s = 10).
Proof.
  intros Hr. rewrite scoreBps_formula.
  pose proof (clampScore_range s) as Hc.
  generalize dependent (clampScore s). intros c Hc.
  assert (c = 1 \/ c = 2 \/ c = 3 \/ c = 4 \/ c = 5 \/ c = 6 \/ c = 7 \/ c = 8
          \/ c = 9 \/ c = 10) as Ec by lia.
  assert (r = 0 \/ r = 1 \/ r = 2 \/ r = 3 \/ r = 4 \/ r = 5 \/ r = 6 \/ r = 7
          \/ r = 8 \/ r = 9) as Er by lia.
  repeat match goal with H : _ \/ _ |- _ => destruct H as [->|H] end; subst;
    vm_compute; split; intros H; first [reflexivity | discriminate H].
Qed.

Lemma bps_ok (k : Credit) (N : Z) (st : list LaneStats) :
  1 <= N -> length st = 6%nat ->
  (forall i, (i < 6)%nat -> 0 <= credit k (nth i st d0) <= zq N)%Q ->
  (sumCredit k st == zq N * zq (spots k))%Q ->
  bpsArrayOk (map (fun s => fmtBps (credit k s / zq N)) st) (spots k * 10000).
Proof.
  intros HN Hl Hb Hs.
  assert (HNq : (1 <= zq N)%Q).
  { unfold zq. change 1%Q with (inject_Z 1). rewrite <- Zle_Qle. lia. }
  split; [rewrite length_map; auto|split].
  - apply Forall_forall. intros b Hin. apply in_map_iff in Hin as (s & <- & Hs').
    apply In_nth with (d := d0) in Hs' as (i & Hi & <-).
    apply fmtBps_range. specialize (Hb i ltac:(lia)). split.
    + apply Qle_shift_div_l; lra.
    + apply Qle_shift_div_r; lra.
  - pose proof (sumZ_fmtBps k (zq N) st) as B. rewrite Hl, Hs in B.
    assert (E : (zq N * zq (spots k) * / zq N * 10000 == zq (spots k * 10000))%Q).
    { unfold zq. rewrite inject_Z_mult. field. unfold zq in HNq. intros H0.
      rewrite H0 in HNq. lra. }
    rewrite E in B. assert (H3 : (zq (Z.of_nat 6) * (1 # 2) == 3)%Q) by reflexivity. rewrite H3 in B.
    set (S := sumZ (map (fun s => fmtBps (credit k s / zq N)) st)) in *.
    set (T := spots k * 10000) in *.
    destruct B as [B1 B2].
    assert (L1 : (inject_Z (T - 3) <= inject_Z S)%Q).
    { unfold Z.sub. rewrite inject_Z_plus. unfold zq in B1. change (inject_Z (Z.opp 3)) with (-3)%Q. lra. }
    assert (L2 : (inject_Z S <= inject_Z (T + 3))%Q).
    { rewrite inject_Z_plus. unfold zq in B2. change (inject_Z 3) with 3%Q. lra. }
    rewrite <- Zle_Qle in L1, L2. lia.
Qed.

Lemma laneStep_rng (g : FastRng) (b : Z) :
  fst (laneStep g b)
  = let '(g1, v) := next g in
    if 0 <? Z.rem ((v mod 10 + 1) * b) 10000 then fst (next g1) else g1.
Proof.
  unfold laneStep, roll, SPEED_RANGE.
  change (10 <=? 1) with false. change (10000 <=? 1) with false. cbv iota.
  destruct (next g) as [g1 v]. cbv iota zeta.
  destruct (0 <? Z.rem ((v mod 10 + 1) * b) 10000); [destruct (next g1)|];
    reflexivity.
Qed.

Lemma moveLane_rng (t : Z) (bps : list Z) (st : RaceState) (a : nat) :
  rng (moveLane t bps st a) = fst (laneStep (rng st) (nth a bps 0)).
Proof.
  unfold moveLane. destruct (laneStep (rng st) (nth a bps 0)). reflexivity.
Qed.

Lemma nth_bps (scores : list num) (a : nat) :
  (a < 6)%nat ->
  nth a (map (fun i => scoreBps (scoreAt scores i)) (seq 0 LANE_COUNT)) 0
  = scoreBps (scoreAt scores a).
Proof.
  intros H. do 6 (destruct a as [|a]; [reflexivity|]). lia.
Qed.

Lemma scoreBps_10000 (s : num) : scoreBps s = 10000 <-> clampScore s = 10.
Proof.
  rewrite scoreBps_formula. pose proof (clampScore_range s) as Hc.
  generalize dependent (clampScore s). intros c Hc.
  assert (c = 1 \/ c = 2 \/ c = 3 \/ c = 4 \/ c = 5 \/ c = 6 \/ c = 7 \/ c = 8
          \/ c = 9 \/ c = 10) as Ec by lia.
  repeat match goal with H : _ \/ _ |- _ => destruct H as [->|H] end; subst;
    vm_compute; split; intros H; first [reflexivity | discriminate H].
Qed.

Lemma checkOrder_true : checkOrder = true.
Proof. vm_compute. reflexivity. Qed.

Lemma contrib_order (fo : FinishOrder) (i : nat) :
  bandsOk fo ->
  (contrib Win i (plan fo) <= contrib Place i (plan fo)
   <= contrib Show i (plan fo))%Q.
Proof.
  intros Hb. pose proof Hb as (_ & _ & _ & _ & _ & Hs).
  pose proof (shapeb_bounds _ _ _ Hs) as Hbd.
  pose proof (count_occ_bands fo i Hb) as Hm.
  rewrite !contrib_plan.
  set (n1 := count (first fo)) in *.
  set (n2 := count (second fo)) in *.
  set (n3 := count (third fo)) in *.
  set (m1 := count_occ Nat.eq_dec (lanes (first fo)) i) in *.
  set (m2 := count_occ Nat.eq_dec (lanes (second fo)) i) in *.
  set (m3 := count_occ Nat.eq_dec (lanes (third fo)) i) in *.
  pose proof checkOrder_true as C. unfold checkOrder in C.
  rewrite forallb_forall in C. specialize (C n1 ltac:(apply in_range7; lia)).
  rewrite forallb_forall in C. specialize (C n2 ltac:(apply in_range7; lia)).
  rewrite forallb_forall in C. specialize (C n3 ltac:(apply in_range7; lia)).
  rewrite Hs in C. cbn [implb] in C.
  rewrite forallb_forall in C. specialize (C (m1, m2, m3)).
  assert (Hin : In (m1, m2, m3) [(0, 0, 0); (1, 0, 0); (0, 1, 0); (0, 0, 1)]%nat).
  { destruct m1 as [|[|m1]]; destruct m2 as [|[|m2]]; destruct m3 as [|[|m3]];
    simpl; try lia; tauto. }
  specialize (C Hin). apply andb_true_iff in C as [Ca Cb].
  apply Qle_bool_iff in Ca, Cb. split; auto.
Qed.

Lemma runSamples_inv (P : list LaneStats -> Prop) :
  (forall st fo st', P st -> bandsOk fo -> accumulateStats st fo = Some st' -> P st') ->
  forall n x clamped stats calls st,
    P stats -> runSamples n x clamped stats = (calls, Some st) -> P st.
Proof.
  intros Hstep n. induction n as [|n IH]; intros x clamped stats calls st Hp; cbn [runSamples].
  - intros H. injection H as _ <-. exact Hp.
  - destruct (splitmix32Next x) as [x' seed].
    destruct (simulateFullRace_ok seed (map numOfZ clamped)) as (fo & ds & ft & -> & Hb).
    destruct (accumulateStats stats fo) as [st1|] eqn:Ea; [|discriminate].
    destruct (runSamples n x' clamped st1) as [calls' r] eqn:Er.
    intros H. injection H as _ ->.
    exact (IH x' clamped st1 calls' st (Hstep stats fo st1 Hp Hb Ea) Er).
Qed.

Lemma accumulateStats_ordered (st : list LaneStats) (fo : FinishOrder)
    (st' : list LaneStats) :
  laneOrdered st -> bandsOk fo -> accumulateStats st fo = Some st' ->
  laneOrdered st'.
Proof.
  intros [Hl Ho] Hb Ha.
  destruct (accumulateStats_ok st fo Hb Hl) as (st1 & E & Hl1 & Hlane & _ & _).
  rewrite Ha in E. injection E as <-. split; [exact Hl1|].
  intros i Hi. specialize (Ho i Hi). pose proof (contrib_order fo i Hb).
  pose proof (Hlane Win i Hi). pose proof (Hlane Place i Hi).
  pose proof (Hlane Show i Hi). cbn [credit] in *.
  split; lra.
Qed.

Lemma total_empty (k : Credit) (ps : list Step) :
  Forall (fun p : Step => let '(_, ls, _) := p in ls = []) ps ->
  (total k ps == 0)%Q.
Proof.
  induction ps as [|[[k' ls] v] ps IH]; intros H; simpl; [reflexivity|].
  inversion H as [|? ? Hp Hf]; subst. rewrite (IH Hf).
  destruct (Credit_eqb k k'); simpl; unfold zq; simpl; ring.
Qed.

Lemma planTotal_unlisted (k : Credit) (n1 n2 n3 : Z) :
  (planTotal k n1 n2 n3 0 0 0 == 0)%Q.
Proof.
  unfold planTotal. apply total_empty.
  eapply Forall_impl; [|apply plan_lanes].
  intros [[k' ls] v]. cbn. intros [->|[->| ->]]; reflexivity.
Qed.

Lemma accumulateStats_lane (ft ds : list Z) (fo : FinishOrder)
    (st st' : list LaneStats) :
  length ft = 6%nat -> calculateFinishOrder ft ds = Some fo ->
  length st = 6%nat -> accumulateStats st fo = Some st' ->
  bandsOk fo /\ length st' = 6%nat
  /\ forall k i, (i < 6)%nat ->
       (credit k (nth i st' d0) == credit k (nth i st d0) + contrib k i (plan fo))%Q.
Proof.
  intros Hft Hfo Hl Ha.
  destruct (calculateFinishOrder_bands ft ds Hft) as (fo' & E & Hb).
  rewrite Hfo in E. injection E as <-.
  destruct (accumulateStats_ok st fo Hb Hl) as (st1 & E & Hl1 & Hlane & _).
  rewrite Ha in E. injection E as <-. auto.
Qed.

Lemma count_occ_one (fo : FinishOrder) (i : nat) :
  bandsOk fo ->
  (In i (lanes (first fo)) ->
     count_occ Nat.eq_dec (lanes (first fo)) i = 1%nat
     /\ count_occ Nat.eq_dec (lanes (second fo)) i = 0%nat
     /\ count_occ Nat.eq_dec (lanes (third fo)) i = 0%nat)
  /\ (In i (lanes (second fo)) ->
     count_occ Nat.eq_dec (lanes (first fo)) i = 0%nat
     /\ count_occ Nat.eq_dec (lanes (second fo)) i = 1%nat
     /\ count_occ Nat.eq_dec (lanes (third fo)) i = 0%nat)
  /\ (In i (lanes (third fo)) ->
     count_occ Nat.eq_dec (lanes (first fo)) i = 0%nat
     /\ count_occ Nat.eq_dec (lanes (second fo)) i = 0%nat
     /\ count_occ Nat.eq_dec (lanes (third fo)) i = 1%nat).
Proof.
  intros Hb. pose proof (count_occ_bands fo i Hb) as H.
  split; [|split]; intros Hin; apply (count_occ_In Nat.eq_dec) in Hin; lia.
Qed.

Lemma laneDone_mono (T T' d f : Z) :
  T <= T' -> laneDone T d f -> laneDone T' d f.
Proof.
  unfold laneDone, FINISH_TIME_PRECISION. intros H [A|A]; [left|right]; lia.
Qed.

Lemma raceInv_mono (T T' : Z) (st : RaceState) :
  T <= T' -> raceInv T st -> raceInv T' st.
Proof.
  intros H (H1 & H2 & H3). repeat split; auto.
  intros i Hi. apply (laneDone_mono T); auto.
Qed.

Lemma moveLane_inv (t : Z) (bps : list Z) (st : RaceState) (a : nat) :
  0 <= t -> (a < 6)%nat -> raceInv (t + 1) st -> raceInv (t + 1) (moveLane t bps st a).
Proof.
  intros Ht Ha (H1 & H2 & H3).
  pose proof (laneStep_speed (rng st) (nth a bps 0)) as Hsp.
  unfold moveLane.
  destruct (laneStep (rng st) (nth a bps 0)) as [g sp]. cbn [snd] in Hsp.
  unfold raceInv. cbn [distances finishTimes].
  set (prev := nth a (distances st) 0).
  set (f := nth a (finishTimes st) 0).
  assert (Hl : laneDone (t + 1) prev f) by (apply H3; exact Ha).
  unfold TRACK_LENGTH, FINISH_TIME_PRECISION in *.
  destruct (Z.eqb_spec f (-1)) as [Ef|Ef];
    destruct (Z.ltb_spec prev 1000) as [Ep|Ep];
    destruct (Z.leb_spec 1000 (prev + sp)) as [Ed|Ed]; cbn [andb];
    (split; [rewrite list_set_length; exact H1|]);
    (split; [try rewrite list_set_length; exact H2|]);
    intros i Hi; rewrite nth_list_set by lia;
    try rewrite nth_list_set by lia;
    destruct (Nat.eqb_spec a i) as [<-|Hne]; try (apply H3; exact Hi);
    fold prev; fold f; unfold laneDone, TRACK_LENGTH, FINISH_TIME_PRECISION in *; try lia.
  right. split; [lia|].
  assert (0 <= (1000 - prev) * 10000 / sp <= 10000); [|lia].
  split; [apply Z.div_pos; lia|].
  apply Z.div_le_upper_bound; lia.
Qed.

Lemma fold_moveLane_inv (t : Z) (bps : list Z) (l : list nat) :
  0 <= t -> (forall a, In a l -> (a < 6)%nat) ->
  forall st, raceInv (t + 1) st ->
  raceInv (t + 1) (fold_left (moveLane t bps) l st).
Proof.
  intros Ht. induction l as [|a l IH]; intros Hl st H; cbn [fold_left]; [exact H|].
  apply IH; [intros b Hb; apply Hl; right; exact Hb|].
  apply moveLane_inv; auto. apply Hl. left. reflexivity.
Qed.

Lemma race_inv (fuel : nat) (bps : list Z) :
  forall t st, 0 <= t -> raceInv t st ->
  raceInv (t + Z.of_nat fuel) (race fuel t bps st).
Proof.
  induction fuel as [|fuel IH]; intros t st Ht H; cbn [race].
  - rewrite Z.add_0_r. exact H.
  - destruct (allFinished (distances st)).
    + apply (raceInv_mono t); [lia|exact H].
    + replace (t + Z.of_nat (S fuel)) with (t + 1 + Z.of_nat fuel) by lia.
      apply IH; [lia|]. unfold tick.
      apply fold_moveLane_inv; [lia| |apply (raceInv_mono t); [lia|exact H]].
      intros a Ha. apply in_seq in Ha. unfold LANE_COUNT in Ha. lia.
Qed.

Lemma u32_mod (z : Z) : u32 z = z mod 2 ^ 32.
Proof. unfold u32. apply Z.land_ones. lia. Qed.

Lemma u32_range (z : Z) : 0 <= u32 z < 2 ^ 32.
Proof. rewrite u32_mod. apply Z.mod_pos_bound. lia. Qed.

Lemma u32_small (z : Z) : 0 <= z < 2 ^ 32 -> u32 z = z.
Proof. intros H. rewrite u32_mod. apply Z.mod_small. exact H. Qed.

Lemma testbit_high (a i : Z) : 0 <= a < 2 ^ 32 -> 32 <= i -> Z.testbit a i = false.
Proof.
  intros Ha Hi. destruct (Z.eq_dec a 0) as [->|Hne]; [apply Z.testbit_0_l|].
  apply Z.bits_above_log2; [lia|].
  assert (Z.log2 a < 32) by (apply Z.log2_lt_pow2; lia). lia.
Qed.

Lemma shiftr_range (a n : Z) : 0 <= n -> 0 <= a < 2 ^ 32 -> 0 <= Z.shiftr a n < 2 ^ 32.
Proof.
  intros Hn Ha. rewrite Z.shiftr_div_pow2 by exact Hn.
  split; [apply Z.div_pos; lia|].
  apply (Z.le_lt_trans _ a); [apply Z.div_le_upper_bound; [lia|] | lia].
  pose proof (Z.pow_pos_nonneg 2 n ltac:(lia) Hn). nia.
Qed.

Lemma lxor_range (a b : Z) :
  0 <= a < 2 ^ 32 -> 0 <= b < 2 ^ 32 -> 0 <= Z.lxor a b < 2 ^ 32.
Proof.
  intros Ha Hb.
  assert (E : u32 (Z.lxor a b) = Z.lxor a b).
  { unfold u32. apply Z.bits_inj'. intros n Hn.
    rewrite Z.land_spec, Z.lxor_spec.
    destruct (Z.lt_ge_cases n 32).
    - rewrite Z.ones_spec_low by lia. apply andb_true_r.
    - rewrite Z.ones_spec_high by lia. rewrite !testbit_high by lia. reflexivity. }
  rewrite <- E. apply u32_range.
Qed.

Lemma xorshift16_inv (z : Z) :
  0 <= z < 2 ^ 32 ->
  let y := Z.lxor z (Z.shiftr z 16) in Z.lxor y (Z.shiftr y 16) = z.
Proof.
  intros Hz. cbv zeta. apply Z.bits_inj'. intros n Hn.
  rewrite !Z.lxor_spec, !Z.shiftr_spec, Z.lxor_spec, !Z.shiftr_spec by lia.
  rewrite (testbit_high z (n + 16 + 16)) by lia.
  destruct (Z.testbit z n), (Z.testbit z (n + 16)); reflexivity.
Qed.

Lemma xorshift13_inv (z : Z) :
  0 <= z < 2 ^ 32 ->
  let y := Z.lxor z (Z.shiftr z 13) in
  Z.lxor (Z.lxor y (Z.shiftr y 13)) (Z.shiftr y 26) = z.
Proof.
  intros Hz. cbv zeta. apply Z.bits_inj'. intros n Hn.
  rewrite !Z.lxor_spec, !Z.shiftr_spec, !Z.lxor_spec, !Z.shiftr_spec by lia.
  replace (n + 13 + 13) with (n + 26) by lia.
  rewrite (testbit_high z (n + 26 + 13)) by lia.
  destruct (Z.testbit z n), (Z.testbit z (n + 13)), (Z.testbit z (n + 26));
    reflexivity.
Qed.

Lemma xorshift_inj (k : Z) (a b : Z) :
  (k = 16 \/ k = 13) -> 0 <= a < 2 ^ 32 -> 0 <= b < 2 ^ 32 ->
  Z.lxor a (Z.shiftr a k) = Z.lxor b (Z.shiftr b k) -> a = b.
Proof.
  intros [->| ->] Ha Hb E.
  - rewrite <- (xorshift16_inv a Ha), <- (xorshift16_inv b Hb). cbv zeta.
    rewrite E. reflexivity.
  - rewrite <- (xorshift13_inv a Ha), <- (xorshift13_inv b Hb). cbv zeta.
    rewrite E. reflexivity.
Qed.

Lemma mul_mod_zero (c ci j d : Z) :
  c * ci = 1 + 2 ^ 32 * j -> (d * c) mod 2 ^ 32 = 0 -> - 2 ^ 32 < d < 2 ^ 32 ->
  d = 0.
Proof.
  intros Hc Hm Hd.
  apply Z.mod_divide in Hm; [|lia]. destruct Hm as [t Ht].
  assert (E : d * (c * ci) = t * ci * 2 ^ 32) by (rewrite Z.mul_assoc, Ht; ring).
  rewrite Hc in E.
  assert (E' : d = 2 ^ 32 * (t * ci - d * j)) by (rewrite Z.mul_sub_distr_l; nia).
  generalize dependent (t * ci - d * j). intros e E'. nia.
Qed.

Lemma mul_u32_inj (c ci j a b : Z) :
  c * ci = 1 + 2 ^ 32 * j -> 0 <= a < 2 ^ 32 -> 0 <= b < 2 ^ 32 ->
  u32 (a * c) = u32 (b * c) -> a = b.
Proof.
  intros Hc Ha Hb E. rewrite !u32_mod in E.
  assert (H : ((a - b) * c) mod 2 ^ 32 = 0).
  { rewrite Z.mul_sub_distr_r, Zminus_mod, E, Z.sub_diag. reflexivity. }
  pose proof (mul_mod_zero c ci j (a - b) Hc H ltac:(lia)). lia.
Qed.

Lemma splitmix32_out_inj (a b : Z) :
  snd (splitmix32Next a) = snd (splitmix32Next b) ->
  fst (splitmix32Next a) = fst (splitmix32Next b).
Proof.
  unfold splitmix32Next. cbn [fst snd].
  set (xa := u32 (a + 0x9e3779b9)). set (xb := u32 (b + 0x9e3779b9)).
  assert (Ra : 0 <= xa < 2 ^ 32) by apply u32_range.
  assert (Rb : 0 <= xb < 2 ^ 32) by apply u32_range.
  set (ya := u32 (Z.lxor xa (Z.shiftr xa 16) * 0x85ebca6b)).
  set (yb := u32 (Z.lxor xb (Z.shiftr xb 16) * 0x85ebca6b)).
  assert (Sa : 0 <= ya < 2 ^ 32) by apply u32_range.
  assert (Sb : 0 <= yb < 2 ^ 32) by apply u32_range.
  set (za := u32 (Z.lxor ya (Z.shiftr ya 13) * 0xc2b2ae35)).
  set (zb := u32 (Z.lxor yb (Z.shiftr yb 13) * 0xc2b2ae35)).
  assert (Ta : 0 <= za < 2 ^ 32) by apply u32_range.
  assert (Tb : 0 <= zb < 2 ^ 32) by apply u32_range.
  intros E.
  rewrite !u32_small in E
    by (apply lxor_range; [lia|apply shiftr_range; lia]).
  apply xorshift_inj in E; [|lia|exact Ta|exact Tb].
  apply (mul_u32_inj 0xc2b2ae35 2127672349 1618177690) in E;
    [|reflexivity|apply lxor_range; [lia|apply shiftr_range; lia]
     |apply lxor_range; [lia|apply shiftr_range; lia]].
  apply xorshift_inj in E; [|lia|exact Sa|exact Sb].
  apply (mul_u32_inj 0x85ebca6b 2781581891 1455126516) in E;
    [|reflexivity|apply lxor_range; [lia|apply shiftr_range; lia]
     |apply lxor_range; [lia|apply shiftr_range; lia]].
  apply xorshift_inj in E; [exact E|lia|exact Ra|exact Rb].
Qed.

Lemma seedAt_inj (x : Z) (k k' : nat) :
  Z.of_nat k < 2 ^ 32 -> Z.of_nat k' < 2 ^ 32 -> seedAt x k = seedAt x k' -> k = k'.
Proof.
  intros Hk Hk' E. unfold seedAt in E.
  apply splitmix32_out_inj in E. unfold splitmix32Next in E. cbn [fst] in E.
  rewrite !u32_mod in E.
  assert (H : ((Z.of_nat k - Z.of_nat k') * 0x9e3779b9) mod 2 ^ 32 = 0).
  { replace ((Z.of_nat k - Z.of_nat k') * 0x9e3779b9)
      with ((x + Z.of_nat k * 0x9e3779b9 + 0x9e3779b9)
            - (x + Z.of_nat k' * 0x9e3779b9 + 0x9e3779b9)) by ring.
    rewrite Zminus_mod, E, Z.sub_diag. reflexivity. }
  pose proof (mul_mod_zero 0x9e3779b9 340573321 210485888 _ eq_refl H ltac:(lia)).
  lia.
Qed.

Lemma splitmix32_u32 (a b : Z) :
  u32 a = u32 b -> splitmix32Next a = splitmix32Next b.
Proof.
  intros H. unfold splitmix32Next.
  assert (E : u32 (a + 0x9e3779b9) = u32 (b + 0x9e3779b9)).
  { rewrite !u32_mod in *. rewrite Zplus_mod, H, <- Zplus_mod. reflexivity. }
  rewrite E. reflexivity.
Qed.

Lemma runSamples_seeds (n : nat) : forall x clamped stats,
  exists m, (m <= n)%nat
    /\ map fst (fst (runSamples n x clamped stats)) = map (seedAt x) (seq 0 m).
Proof.
  induction n as [|n IH]; intros x clamped stats; cbn [runSamples].
  - exists 0%nat. split; reflexivity.
  - assert (E0 : splitmix32Next x = (u32 (x + 0x9e3779b9), seedAt x 0)).
    { unfold seedAt. rewrite Z.add_0_r.
      destruct (splitmix32Next x) as [x' s] eqn:E. rewrite <- E. reflexivity. }
    rewrite E0.
    destruct (simulateFullRace_ok (seedAt x 0) (map numOfZ clamped))
      as (fo & ds & ft & -> & _).
    destruct (accumulateStats stats fo) as [st1|].
    2: { exists 1%nat. split; [lia|reflexivity]. }
    destruct (IH (u32 (x + 0x9e3779b9)) clamped st1) as (m & Hm & Heq).
    destruct (runSamples n (u32 (x + 0x9e3779b9)) clamped st1) as [calls r].
    cbn [fst] in Heq |- *. exists (S m). split; [lia|].
    cbn [map seq fst]. rewrite Heq. f_equal.
    rewrite <- seq_shift, map_map. apply map_ext. intros k.
    unfold seedAt. f_equal. apply splitmix32_u32.
    rewrite !u32_mod. rewrite Zplus_mod, Z.mod_mod, <- Zplus_mod by lia.
    f_equal. lia.
Qed.

Lemma zero_of_bits (a : Z) :
  0 <= a < 2 ^ 32 -> (forall i, 0 <= i < 32 -> Z.testbit a i = false) -> a = 0.
Proof.
  intros Ha H. apply Z.bits_inj'. intros i Hi. rewrite Z.testbit_0_l.
  destruct (Z.lt_ge_cases i 32); [apply H; lia|apply testbit_high; lia].
Qed.

Lemma xorb_false_eq (a b : bool) : xorb a b = false -> a = b.
Proof. destruct a, b; simpl; congruence. Qed.

Lemma xorshl11_zero (z : Z) :
  0 <= z < 2 ^ 32 -> u32 (Z.lxor z (Z.shiftl z 11)) = 0 -> z = 0.
Proof.
  intros Hz E.
  assert (H : forall j, 0 <= j < 32 -> Z.testbit z j = Z.testbit z (j - 11)).
  { intros j Hj. apply xorb_false_eq.
    rewrite <- (Z.shiftl_spec z 11 j) by lia. rewrite <- Z.lxor_spec.
    assert (B : Z.testbit (u32 (Z.lxor z (Z.shiftl z 11))) j = false)
      by (rewrite E; apply Z.testbit_0_l).
    unfold u32 in B. rewrite Z.land_spec, Z.ones_spec_low in B by lia.
    rewrite andb_true_r in B. exact B. }
  apply zero_of_bits; [exact Hz|]. intros i Hi.
  rewrite H by lia.
  destruct (Z.lt_ge_cases (i - 11) 0); [apply Z.testbit_neg_r; lia|].
  rewrite H by lia.
  destruct (Z.lt_ge_cases (i - 11 - 11) 0); [apply Z.testbit_neg_r; lia|].
  rewrite H by lia. apply Z.testbit_neg_r. lia.
Qed.

Lemma xorshr8_zero (z : Z) :
  0 <= z < 2 ^ 32 -> Z.lxor z (Z.shiftr z 8) = 0 -> z = 0.
Proof.
  intros Hz E.
  assert (H : forall j, 0 <= j -> Z.testbit z j = Z.testbit z (j + 8)).
  { intros j Hj. apply xorb_false_eq.
    rewrite <- (Z.shiftr_spec z 8 j) by lia. rewrite <- Z.lxor_spec, E.
    apply Z.testbit_0_l. }
  apply zero_of_bits; [exact Hz|]. intros i Hi.
  do 4 rewrite H by lia. apply testbit_high; [exact Hz|lia].
Qed.

Lemma next_ok (g : FastRng) : rngOk g -> rngOk (fst (next g)).
Proof.
  intros (H0 & H1 & H2 & H3 & Hnz). unfold next. cbn [fst s0 s1 s2 s3].
  unfold rngOk; cbn [s0 s1 s2 s3].
  split; [apply u32_range|]. split; [exact H0|]. split; [exact H1|].
  split; [exact H2|].
  destruct (Z.eq_dec (s0 g) 0) as [E0|E0]; [|right; left; exact E0].
  destruct (Z.eq_dec (s1 g) 0) as [E1|E1]; [|right; right; left; exact E1].
  destruct (Z.eq_dec (s2 g) 0) as [E2|E2]; [|right; right; right; exact E2].
  assert (E3 : s3 g <> 0) by lia.
  left. rewrite E0, Z.shiftr_0_l, !Z.lxor_0_r.
  set (t1 := u32 (Z.lxor (s3 g) (Z.shiftl (s3 g) 11))).
  assert (R1 : 0 <= t1 < 2 ^ 32) by apply u32_range.
  assert (R : 0 <= Z.lxor t1 (Z.shiftr t1 8) < 2 ^ 32)
    by (apply lxor_range; [exact R1|apply shiftr_range; lia]).
  rewrite u32_small by exact R. intros E.
  apply xorshr8_zero in E; [|exact R1].
  apply xorshl11_zero in E; [contradiction|exact H3].
Qed.

Lemma warmUp_ok (n : nat) : forall g, rngOk g -> rngOk (warmUp n g).
Proof.
  induction n as [|n IH]; intros g H; cbn [warmUp]; [exact H|].
  apply IH, next_ok, H.
Qed.

Lemma orDefault_range (v d : Z) :
  0 <= v < 2 ^ 32 -> 0 < d < 2 ^ 32 -> 0 < orDefault v d < 2 ^ 32.
Proof. unfold orDefault. destruct (Z.eqb_spec v 0); lia. Qed.

Lemma cmpEntry_le (a b : Entry) : cmpEntry a b <= 0 -> time a <= time b.
Proof.
  unfold cmpEntry. destruct (Z.eqb_spec (time a) (time b)); simpl; lia.
Qed.

Lemma cmpEntry_gt (a b : Entry) : 0 < cmpEntry a b -> time b <= time a.
Proof.
  unfold cmpEntry. destruct (Z.eqb_spec (time a) (time b)); simpl; lia.
Qed.

Lemma insertEntry_hd (y x : Entry) (l : list Entry) :
  HdRel timeLe y l -> timeLe y x -> HdRel timeLe y (insertEntry x l).
Proof.
  intros H Hyx. destruct l as [|z l]; simpl; [constructor; exact Hyx|].
  destruct (cmpEntry x z <=? 0); constructor; [exact Hyx|].
  inversion H; assumption.
Qed.

Lemma insertEntry_sorted (x : Entry) (l : list Entry) :
  Sorted timeLe l -> Sorted timeLe (insertEntry x l).
Proof.
  induction l as [|y l IH]; intros H; simpl.
  - constructor; constructor.
  - destruct (Z.leb_spec (cmpEntry x y) 0) as [C|C].
    + constructor; [exact H|]. constructor. apply cmpEntry_le. exact C.
    + inversion H as [|? ? Hs Hd]; subst. constructor; [apply IH; exact Hs|].
      apply insertEntry_hd; [exact Hd|]. apply cmpEntry_gt. exact C.
Qed.

Lemma sortEntries_sorted (l : list Entry) : StronglySorted timeLe (sortEntries l).
Proof.
  apply Sorted_StronglySorted; [intros a b c; unfold timeLe; lia|].
  induction l as [|x l IH]; simpl; [constructor|].
  apply insertEntry_sorted. exact IH.
Qed.

Lemma filter_time_nil (t : Z) (l : list Entry) :
  Forall (fun e => t < time e) l -> filter (fun e => time e =? t) l = [].
Proof.
  induction l as [|e l IH]; intros H; simpl; [reflexivity|].
  inversion H as [|? ? He Hl]; subst.
  destruct (Z.eqb_spec (time e) t); [lia|]. apply IH. exact Hl.
Qed.

Lemma groupBy_first (cur : Group) (rest : list Entry) :
  StronglySorted timeLe rest -> Forall (fun e => gtime cur <= time e) rest ->
  exists gs, groupBy cur rest
    = mkGroup (gtime cur)
        (glanes cur ++ map lane (filter (fun e => time e =? gtime cur) rest)) :: gs.
Proof.
  revert cur; induction rest as [|e rest IH]; intros cur Hs Hf; simpl.
  - exists []. destruct cur. simpl. rewrite app_nil_r. reflexivity.
  - inversion Hs as [|? ? Hs' Hf']; subst. inversion Hf as [|? ? He Hr]; subst.
    destruct (Z.eqb_spec (time e) (gtime cur)) as [E|E].
    + destruct (IH (mkGroup (gtime cur) (glanes cur ++ [lane e]))) as [gs Eg];
        [exact Hs'|exact Hr|].
      exists gs. rewrite Eg. cbn [gtime glanes]. rewrite <- app_assoc. reflexivity.
    + exists (groupBy (mkGroup (time e) [lane e]) rest).
      rewrite filter_time_nil; [destruct cur; simpl; rewrite app_nil_r; reflexivity|].
      eapply Forall_impl; [|exact Hf']. unfold timeLe. intros a Ha. lia.
Qed.

Lemma assignPositions_first (gs : list Group) :
  forall position fo, 1 <= position ->
  first (assignPositions position gs fo) = first fo.
Proof.
  induction gs as [|g gs IH]; intros position fo H; simpl; [reflexivity|].
  destruct (Z.eqb_spec position 0); [lia|].
  destruct (Z.eqb_spec position 1).
  { rewrite IH by lia. reflexivity. }
  destruct (Z.eqb_spec position 2).
  { rewrite IH by lia. reflexivity. }
  destruct (3 <=? position); [reflexivity|]. apply IH. exact H.
Qed.

Lemma mkEntries_from (ft ds : list Z) (s : nat) :
  map (fun p => mkEntry (snd p) (fst p) (nth_error ds (snd p)))
      (combine ft (seq s (length ft)))
  = map (fun i => mkEntry i (nth (i - s) ft 0) (nth_error ds i)) (seq s (length ft)).
Proof.
  revert s; induction ft as [|t ft IH]; intros s; simpl; [reflexivity|].
  rewrite Nat.sub_diag. f_equal. rewrite IH.
  apply map_ext_in. intros i Hi. apply in_seq in Hi.
  replace (i - s)%nat with (S (i - S s)) by lia. reflexivity.
Qed.

Lemma In_mkEntries (ft ds : list Z) (e : Entry) :
  In e (mkEntries ft ds)
  <-> exists i, (i < length ft)%nat /\ e = mkEntry i (nth i ft 0) (nth_error ds i).
Proof.
  unfold mkEntries. rewrite mkEntries_from, in_map_iff.
  split.
  - intros (i & <- & Hi). apply in_seq in Hi. exists i.
    rewrite Nat.sub_0_r. split; [lia|reflexivity].
  - intros (i & Hi & ->). exists i. rewrite Nat.sub_0_r.
    split; [reflexivity|]. apply in_seq. lia.
Qed.

Lemma roll_range (g : FastRng) (n : Z) : 1 < n -> 0 <= snd (roll g n) < n.
Proof.
  intros H. unfold roll. destruct (Z.leb_spec n 1); [lia|].
  destruct (next g) as [g' v]. cbn [snd]. apply Z.mod_pos_bound. lia.
Qed.

Lemma laneStep_speed_le (g : FastRng) (b : Z) :
  0 <= b <= 10000 -> snd (laneStep g b) <= 10.
Proof.
  intros Hb. unfold laneStep.
  pose proof (roll_range g SPEED_RANGE ltac:(unfold SPEED_RANGE; lia)) as Hr.
  destruct (roll g SPEED_RANGE) as [g1 r]. cbn [snd] in Hr. unfold SPEED_RANGE in Hr.
  cbv zeta.
  assert (Hraw : 0 <= (r + 1) * b <= 100000) by nia.
  rewrite Z.rem_mod_nonneg by lia.
  pose proof (Z.div_mod ((r + 1) * b) 10000 ltac:(lia)) as Hdm.
  pose proof (Z.mod_pos_bound ((r + 1) * b) 10000 ltac:(lia)) as Hm.
  set (raw := (r + 1) * b) in *.
  destruct (Z.ltb_spec 0 (raw mod 10000)).
  - destruct (roll g1 10000) as [g2 pick]. cbv iota.
    destruct (pick <? raw mod 10000); cbn [snd];
      match goal with |- context [Z.ltb ?a ?b] => destruct (Z.ltb_spec a b) end; lia.
  - cbn [snd]. destruct (Z.ltb_spec 0 (raw / 10000)); lia.
Qed.

Lemma moveLane_ticks (t : Z) (bps : list Z) (n o : RaceState) (a : nat) :
  0 <= t -> (a < 6)%nat -> 0 <= nth a bps 0 <= 10000 ->
  ticksRel n o -> ticksRel (moveLane t bps n a) (moveLaneTicks t bps o a).
Proof.
  intros Ht Ha Hb (Er & Ed & Ln & Lo & Hf).
  unfold moveLane, moveLaneTicks. rewrite <- Er, <- Ed.
  pose proof (laneStep_speed (rng n) (nth a bps 0)) as S1.
  pose proof (laneStep_speed_le (rng n) (nth a bps 0) Hb) as S2.
  destruct (laneStep (rng n) (nth a bps 0)) as [g sp]. cbn [snd] in S1, S2.
  destruct (Hf a Ha) as [Hfa Hfo].
  set (fa := nth a (finishTimes n) 0) in *.
  set (prev := nth a (distances n) 0).
  assert (Eb : (nth a (finishTimes o) 0 =? -1) = (fa =? -1)).
  { rewrite Hfo. unfold tickOf, FINISH_TIME_PRECISION.
    destruct (Z.eqb_spec fa (-1)); [reflexivity|].
    apply Z.eqb_neq. pose proof (Z.div_pos (fa - 1) 10000). lia. }
  rewrite Eb.
  unfold ticksRel; cbn [rng distances finishTimes].
  split; [reflexivity|]. split; [reflexivity|].
  destruct ((fa =? -1) && (prev <? TRACK_LENGTH) && (TRACK_LENGTH <=? prev + sp)) eqn:C.
  - apply andb_true_iff in C as [C C3]. apply andb_true_iff in C as [C1 C2].
    apply Z.leb_le in C3. apply Z.ltb_lt in C2.
    unfold TRACK_LENGTH, FINISH_TIME_PRECISION in *.
    set (frac := (1000 - prev) * 10000 / sp).
    assert (F1 : 1000 <= frac) by (apply Z.div_le_lower_bound; lia).
    assert (F2 : frac <= 10000) by (apply Z.div_le_upper_bound; lia).
    split; [rewrite list_set_length; exact Ln|].
    split; [rewrite list_set_length; exact Lo|].
    intros i Hi. rewrite !nth_list_set by lia.
    destruct (Nat.eqb_spec a i) as [<-|Hne]; [|apply Hf; exact Hi].
    split; [right; lia|].
    unfold tickOf, FINISH_TIME_PRECISION.
    destruct (Z.eqb_spec (t * 10000 + frac) (-1)); [lia|].
    replace (t * 10000 + frac - 1) with ((frac - 1) + t * 10000) by ring.
    rewrite Z.div_add by lia. rewrite Z.div_small by lia. lia.
  - split; [exact Ln|]. split; [exact Lo|]. exact Hf.
Qed.

Lemma fold_moveLane_ticks (t : Z) (bps : list Z) (l : list nat) :
  0 <= t -> (forall a, In a l -> (a < 6)%nat /\ 0 <= nth a bps 0 <= 10000) ->
  forall n o, ticksRel n o ->
  ticksRel (fold_left (moveLane t bps) l n) (fold_left (moveLaneTicks t bps) l o).
Proof.
  intros Ht. induction l as [|a l IH]; intros Hl n o H; cbn [fold_left]; [exact H|].
  apply IH; [intros b Hb; apply Hl; right; exact Hb|].
  destruct (Hl a (or_introl eq_refl)) as [Ha Hb].
  apply moveLane_ticks; auto.
Qed.

Lemma race_ticks (fuel : nat) (bps : list Z) :
  (forall a, (a < 6)%nat -> 0 <= nth a bps 0 <= 10000) ->
  forall t n o, 0 <= t -> ticksRel n o ->
  ticksRel (race fuel t bps n) (raceTicks fuel t bps o).
Proof.
  intros Hb. induction fuel as [|fuel IH]; intros t n o Ht H; cbn [race raceTicks];
    [exact H|].
  pose proof H as (_ & Ed & _).
  rewrite <- Ed. destruct (allFinished (distances n)); [exact H|].
  apply IH; [lia|]. unfold tick, tickTicks.
  apply fold_moveLane_ticks; [lia| |exact H].
  intros a Ha. apply in_seq in Ha. unfold LANE_COUNT in Ha.
  split; [lia|]. apply Hb. lia.
Qed.

Lemma scoreBps_range (s : num) : 0 <= scoreBps s <= 10000.
Proof.
  rewrite scoreBps_formula. pose proof (clampScore_range s) as Hc.
  generalize dependent (clampScore s). intros c Hc.
  assert (c = 1 \/ c = 2 \/ c = 3 \/ c = 4 \/ c = 5 \/ c = 6 \/ c = 7 \/ c = 8
          \/ c = 9 \/ c = 10) as Ec by lia.
  repeat match goal with H : _ \/ _ |- _ => destruct H as [->|H] end; subst;
    vm_compute; split; discriminate.
Qed.

Lemma clampScore_clamped (s : num) :
  clampScore (numOfZ (clampScore s)) = clampScore s.
Proof.
  pose proof (clampScore_range s) as H. unfold numOfZ, zq.
  generalize dependent (clampScore s). intros c Hc.
  cbn [clampScore]. rewrite Qfloor_Z.
  destruct (Z.ltb_spec c 1); [lia|]. destruct (Z.ltb_spec 10 c); [lia|]. reflexivity.
Qed.

(** * Claims *)

(** C1 (the unfinished sentinel): lane 0 still holds the unfinished
    finish time [-1] while lanes 1 to 5 finished; the ascending sort on
    [a.time - b.time] puts lane 0 alone in first place, ahead of every lane
    that finished. *)
Theorem finishOrder_unfinished_first :
  calculateFinishOrder [-1; 20000; 21000; 22000; 23000; 24000]
                       [900; 1100; 1090; 1080; 1070; 1060]
  = Some (mkOrder (mkBand [0%nat] 1) (mkBand [1%nat] 1) (mkBand [2%nat] 1)).
Proof. vm_compute. reflexivity. Qed.

(** C2 (determinism): two calls with the same scores, samples and salt
    that differ only in the clock make the same simulations and return
    the same arrays (or throw the same error); only [elapsedMs] may
    differ. *)
Theorem calculateProbabilities_deterministic (clock1 clock2 : Z * Z)
    (scores : list num) (samples : num) (salt : Z) :
  fst (calculateProbabilities clock1 scores samples salt)
  = fst (calculateProbabilities clock2 scores samples salt)
  /\ match snd (calculateProbabilities clock1 scores samples salt),
           snd (calculateProbabilities clock2 scores samples salt) with
     | Return r1, Return r2 =>
         winProbBps r1 = winProbBps r2 /\ placeProbBps r1 = placeProbBps r2
         /\ showProbBps r1 = showProbBps r2 /\ r_scores r1 = r_scores r2
     | Throw m1, Throw m2 => m1 = m2
     | _, _ => False
     end.
Proof.
  unfold calculateProbabilities.
  destruct (negb (Nat.eqb (length scores) LANE_COUNT)); [split; reflexivity|].
  destruct samples as [q| | |]; try (split; reflexivity).
  destruct (Qle_bool q 0); [split; reflexivity|].
  match goal with |- context [runSamples ?n ?x ?c ?s] =>
    destruct (runSamples n x c s) as [calls [st|]] end;
    cbn [fst snd]; repeat split.
Qed.

(** C3 (credit totals): on the bands [calculateFinishOrder] returns for six
    finish times, one [accumulateStats] call on six lane records raises the
    sum of the win credits by exactly 1, of the place credits by 2 and of
    the show credits by 3. *)
Theorem accumulateStats_totals (ft ds : list Z) (fo : FinishOrder)
    (stats : list LaneStats) :
  length ft = 6%nat -> length ds = 6%nat ->
  calculateFinishOrder ft ds = Some fo -> length stats = 6%nat ->
  exists st', accumulateStats stats fo = Some st'
    /\ (sumCredit Win st' == sumCredit Win stats + 1)%Q
    /\ (sumCredit Place st' == sumCredit Place stats + 2)%Q
    /\ (sumCredit Show st' == sumCredit Show stats + 3)%Q.
Proof.
  intros Hft _ Hfo Hl.
  destruct (calculateFinishOrder_bands ft ds Hft) as (fo' & E & Hb).
  rewrite Hfo in E. injection E as <-.
  destruct (accumulateStats_ok stats fo Hb Hl) as (st' & Hr & _ & _ & _ & Hs).
  exists st'. split; [exact Hr|]. split; [|split].
  - rewrite (Hs Win). reflexivity.
  - rewrite (Hs Place). reflexivity.
  - rewrite (Hs Show). reflexivity.
Qed.

(** C4 (validation): the call throws exactly when there are not six
    scores or [samples] is not a finite positive number, and then runs no
    simulation; every simulation gets the clamped scores, each in [1,10],
    with non-finite and below-1 values clamped to 1 and above-10 values
    to 10. *)
Theorem calculateProbabilities_validation (clock : Z * Z) (scores : list num)
    (samples : num) (salt : Z) :
  (isThrow (snd (calculateProbabilities clock scores samples salt)) = true
   <-> (length scores <> 6%nat \/ ~ samplesOk samples))
  /\ (isThrow (snd (calculateProbabilities clock scores samples salt)) = true ->
      fst (calculateProbabilities clock scores samples salt) = [])
  /\ Forall (fun c => snd c = map clampScore scores)
            (fst (calculateProbabilities clock scores samples salt))
  /\ Forall (fun c => 1 <= c <= 10) (map clampScore scores)
  /\ (forall s, isFinite s = false -> clampScore s = 1)
  /\ (forall q, (q < 1)%Q -> clampScore (Fin q) = 1)
  /\ (forall q, (10 < q)%Q -> clampScore (Fin q) = 10).
Proof.
  assert (Hclamp : Forall (fun c => 1 <= c <= 10) (map clampScore scores)).
  { apply Forall_forall. intros c Hc. apply in_map_iff in Hc as (s & <- & _).
    apply clampScore_range. }
  assert (Hrules :
    (forall s, isFinite s = false -> clampScore s = 1)
    /\ (forall q, (q < 1)%Q -> clampScore (Fin q) = 1)
    /\ (forall q, (10 < q)%Q -> clampScore (Fin q) = 10)).
  { split; [|split].
    - intros [q| | |] H; simpl in *; congruence.
    - intros q Hq. simpl. pose proof (Qfloor_le q).
      assert (Qfloor q < 1).
      { rewrite Zlt_Qlt. change (inject_Z 1) with 1%Q. lra. }
      destruct (Z.ltb_spec (Qfloor q) 1); lia.
    - intros q Hq. simpl. pose proof (Qlt_floor q) as H.
      rewrite inject_Z_plus in H. change (inject_Z 1) with 1%Q in H.
      assert (H9 : (inject_Z 9 < inject_Z (Qfloor q))%Q)
        by (change (inject_Z 9) with 9%Q; lra).
      rewrite <- Zlt_Qlt in H9.
      destruct (Z.ltb_spec (Qfloor q) 1); try lia.
      destruct (Z.ltb_spec 10 (Qfloor q)); lia. }
  destruct (Nat.eq_dec (length scores) 6) as [Hl|Hl].
  - destruct samples as [q| | |].
    + destruct (Qlt_le_dec 0 q) as [Hq|Hq].
      * destruct (calculateProbabilities_valid clock scores q salt Hl Hq)
          as (calls & r & st & E & _ & Hf & _).
        rewrite E. cbn [fst snd isThrow].
        split; [|split; [|split; [|split]]]; auto.
        -- split; [discriminate|]. intros [H|H]; [contradiction|].
           exfalso. apply H. exact Hq.
        -- discriminate.
      * unfold calculateProbabilities. rewrite Hl. cbn [negb Nat.eqb LANE_COUNT].
        assert (E : Qle_bool q 0 = true) by (apply Qle_bool_iff; exact Hq).
        rewrite E. cbn [fst snd isThrow].
        split; [|split; [|split; [|split]]]; auto.
        split; [intros _; right; simpl; lra | reflexivity].
    + unfold calculateProbabilities. rewrite Hl. cbn [negb Nat.eqb LANE_COUNT].
      cbn [fst snd isThrow].
      split; [|split; [|split; [|split]]]; auto.
      split; [intros _; right; simpl; tauto | reflexivity].
    + unfold calculateProbabilities. rewrite Hl. cbn [negb Nat.eqb LANE_COUNT].
      cbn [fst snd isThrow].
      split; [|split; [|split; [|split]]]; auto.
      split; [intros _; right; simpl; tauto | reflexivity].
    + unfold calculateProbabilities. rewrite Hl. cbn [negb Nat.eqb LANE_COUNT].
      cbn [fst snd isThrow].
      split; [|split; [|split; [|split]]]; auto.
      split; [intros _; right; simpl; tauto | reflexivity].
  - unfold calculateProbabilities.
    assert (E : Nat.eqb (length scores) LANE_COUNT = false)
      by (apply Nat.eqb_neq; exact Hl).
    rewrite E. cbn [negb fst snd isThrow].
    split; [|split; [|split; [|split]]]; auto.
    split; [intros _; left; exact Hl | reflexivity].
Qed.

(** Basis-point arrays for an integer number of samples: with six scores
    and [N >= 1] samples the call returns three arrays of length 6 with
    entries in [0, 10000] whose sums are within 3 of 10000, 20000 and
    30000. *)
Theorem calculateProbabilities_bps (clock : Z * Z) (scores : list num) (N : Z)
    (salt : Z) :
  length scores = 6%nat -> 1 <= N ->
  exists calls r,
    calculateProbabilities clock scores (Fin (zq N)) salt = (calls, Return r)
    /\ bpsArrayOk (winProbBps r) 10000
    /\ bpsArrayOk (placeProbBps r) 20000
    /\ bpsArrayOk (showProbBps r) 30000.
Proof.
  intros Hl HN.
  assert (Hq : (0 < zq N)%Q).
  { unfold zq. change 0%Q with (inject_Z 0). rewrite <- Zlt_Qlt. lia. }
  destruct (calculateProbabilities_valid clock scores (zq N) salt Hl Hq)
    as (calls & r & st & E & _ & _ & _ & Hst & Hk & Hb & Hs).
  rewrite iterations_Z, Z2Nat.id in Hb, Hs by lia.
  exists calls, r. split; [exact E|].
  split; [|split].
  - change (winProbBps r) with (bpsOf Win r). rewrite Hk.
    apply (bps_ok Win); auto.
  - change (placeProbBps r) with (bpsOf Place r). rewrite Hk.
    apply (bps_ok Place); auto.
  - change (showProbBps r) with (bpsOf Show r). rewrite Hk.
    apply (bps_ok Show); auto.
Qed.

(** C5 (basis-point arrays for every [samples >= 1]) fails on a sample
    count the validation accepts: with [samples = 1.5] the loop
    [for (let i = 0; i < samples; i++)] runs [ceil(1.5) = 2] simulations
    but the credits are divided by 1.5, so lane 1 gets a show value of
    13333 > 10000 and the show array sums to 40000, not about 30000. *)
Lemma calculateProbabilities_fractional_samples :
  snd (calculateProbabilities (0, 5) (repeat (Fin 10) 6) (Fin (3 # 2)) 0)
  = Return (mkResult (repeat 10 6) (Fin (3 # 2)) 5
              [0; 6667; 0; 0; 0; 6667]
              [0; 6667; 6667; 0; 6667; 6667]
              [0; 13333; 6667; 6667; 6667; 6667])
  /\ ~ bpsArrayOk [0; 13333; 6667; 6667; 6667; 6667] 30000.
Proof.
  split.
  - vm_compute. reflexivity.
  - unfold bpsArrayOk, sumZ. cbn. intros (_ & _ & H). lia.
Qed.

(** C6 (six-way dead heat): when all six lanes share first place and the
    other bands are empty, one [accumulateStats] call adds 1/6 win, 2/6
    place and 3/6 show credit to every lane. *)
Theorem accumulateStats_all_tied (stats : list LaneStats) (fo : FinishOrder) :
  length stats = 6%nat ->
  Permutation (lanes (first fo)) (seq 0 6) -> count (first fo) = 6 ->
  second fo = emptyBand -> third fo = emptyBand ->
  exists st', accumulateStats stats fo = Some st'
    /\ forall i, (i < 6)%nat ->
         (winCredits (nth i st' d0) == winCredits (nth i stats d0) + (1 # 6))%Q
         /\ (placeCredits (nth i st' d0) == placeCredits (nth i stats d0) + (2 # 6))%Q
         /\ (showCredits (nth i st' d0) == showCredits (nth i stats d0) + (3 # 6))%Q.
Proof.
  intros Hl Hp Hc H2 H3.
  rewrite accumulateStats_plan.
  destruct (runSteps_ok (plan fo) stats) as (st' & Hr & _ & Hlane & _).
  { intros k ls v Hin l Hl'. rewrite Hl.
    pose proof (proj1 (Forall_forall _ _) (plan_lanes fo) _ Hin) as Hls.
    cbv beta iota in Hls. rewrite H2, H3 in Hls. cbn [lanes emptyBand] in Hls.
    destruct Hls as [->|[->| ->]]; try contradiction.
    apply (Permutation_in _ Hp) in Hl'. apply in_seq in Hl'. lia. }
  exists st'. split; [exact Hr|]. intros i Hi.
  assert (Ho : count_occ Nat.eq_dec (lanes (first fo)) i = 1%nat).
  { rewrite (proj1 (Permutation_count_occ Nat.eq_dec _ _) Hp).
    do 6 (destruct i as [|i]; [reflexivity|]). lia. }
  rewrite Hl in Hlane.
  change (winCredits (nth i st' d0)) with (credit Win (nth i st' d0)).
  change (placeCredits (nth i st' d0)) with (credit Place (nth i st' d0)).
  change (showCredits (nth i st' d0)) with (credit Show (nth i st' d0)).
  rewrite !Hlane by exact Hi. rewrite !contrib_plan, Hc, H2, H3, Ho.
  cbn [lanes count emptyBand count_occ].
  split; [|split]; apply Qplus_inj_l; reflexivity.
Qed.

(** C7 (speed bias), as the code has it: [scoreBps] is
    [9585 + floor((s - 1) * 415 / 9)] of the clamped score [s]; it is 9585
    at 1 and 10000 at 10, strictly increasing in the clamped score,
    non-decreasing in a finite raw score, and 9585 for NaN and both
    infinities. *)
Theorem scoreBps_spec (s : num) :
  scoreBps s = 9585 + ((clampScore s - 1) * 415) / 9
  /\ 1 <= clampScore s <= 10
  /\ (clampScore s = 1 -> scoreBps s = 9585)
  /\ (clampScore s = 10 -> scoreBps s = 10000)
  /\ (forall s', clampScore s < clampScore s' -> scoreBps s < scoreBps s')
  /\ (forall q q', s = Fin q -> (q <= q')%Q -> scoreBps s <= scoreBps (Fin q'))
  /\ (isFinite s = false -> scoreBps s = 9585).
Proof.
  pose proof (clampScore_range s) as Hc.
  split; [apply scoreBps_formula|]. split; [exact Hc|].
  split; [intros E; rewrite scoreBps_formula, E; reflexivity|].
  split; [intros E; rewrite scoreBps_formula, E; reflexivity|].
  split; [|split].
  - intros s' Hlt. pose proof (clampScore_range s') as Hc'.
    rewrite !scoreBps_formula.
    assert (Hd : (clampScore s - 1) * 415 + 415 <= (clampScore s' - 1) * 415) by lia.
    pose proof (Z.div_le_mono _ _ 9 ltac:(lia) Hd) as Hm.
    replace ((clampScore s - 1) * 415 + 415) with (46 * 9 + ((clampScore s - 1) * 415 + 1))
      in Hm by lia.
    rewrite Z.div_add_l in Hm by lia.
    pose proof (Z.div_le_mono ((clampScore s - 1) * 415) ((clampScore s - 1) * 415 + 1) 9
                  ltac:(lia) ltac:(lia)).
    lia.
  - intros q q' -> Hq. rewrite !scoreBps_formula.
    pose proof (clampScore_mono q q' Hq) as Hm.
    apply Z.add_le_mono_l, Z.div_le_mono; lia.
  - intros Hf. rewrite scoreBps_formula.
    destruct s; simpl in Hf |- *; try discriminate; reflexivity.
Qed.

(** C7, counterexample to monotonicity in the raw input: [+Infinity] is
    clamped to 1, so it gets a smaller bias than the raw score 10. *)
Lemma scoreBps_infinity_below_ten :
  scoreBps PosInf = 9585 /\ scoreBps (Fin 10) = 10000
  /\ scoreBps PosInf < scoreBps (Fin 10).
Proof. vm_compute. split; [reflexivity | split; reflexivity]. Qed.

(** C8 (minimum step): in a tick, every lane's distance grows by at
    least 1. *)
Theorem tick_advances (t : Z) (bps : list Z) (st : RaceState) (a : nat) :
  length (distances st) = 6%nat -> (a < 6)%nat ->
  nth a (distances (tick t bps st)) 0 >= nth a (distances st) 0 + 1.
Proof.
  intros Hl Ha. unfold tick.
  assert (Hin : forall b, In b (seq 0 LANE_COUNT) -> (b < length (distances st))%nat).
  { intros b Hb. apply in_seq in Hb. unfold LANE_COUNT in Hb. lia. }
  pose proof (fold_moveLane t bps (seq 0 LANE_COUNT) st Hin a) as H.
  destruct (in_dec Nat.eq_dec a (seq 0 LANE_COUNT)) as [_|Hn]; [lia|].
  exfalso. apply Hn. apply in_seq. unfold LANE_COUNT. lia.
Qed.

(** C9 (generator draws): moving lane [a] draws once for the speed and a
    second time only when [rem = ((r mod 10) + 1) * bias mod 10000] is
    positive; [rem] is 0 exactly when the lane's bias is 10000, that is
    when its clamped score is 10. *)
Theorem moveLane_draws (t : Z) (scores : list num) (st : RaceState) (a : nat) :
  (a < 6)%nat ->
  let bps := map (fun i => scoreBps (scoreAt scores i)) (seq 0 LANE_COUNT) in
  let g1 := fst (next (rng st)) in
  let rem := Z.rem ((snd (next (rng st)) mod 10 + 1) * nth a bps 0) 10000 in
  rng (moveLane t bps st a) = (if 0 <? rem then fst (next g1) else g1)
  /\ 0 <= rem
  /\ (rem = 0 <-> nth a bps 0 = 10000)
  /\ (rem = 0 <-> clampScore (scoreAt scores a) = 10).
Proof.
  intros Ha bps g1 rem.
  assert (Hb : nth a bps 0 = scoreBps (scoreAt scores a)) by (apply nth_bps; auto).
  assert (Hr : 0 <= snd (next (rng st)) mod 10 < 10) by (apply Z.mod_pos_bound; lia).
  pose proof (clampScore_range (scoreAt scores a)).
  split; [|split; [|split]].
  - rewrite moveLane_rng, laneStep_rng. subst g1 rem.
    destruct (next (rng st)) as [g v]. reflexivity.
  - subst rem. apply Z.rem_nonneg; [lia|].
    rewrite Hb, scoreBps_formula. apply Z.mul_nonneg_nonneg; [lia|].
    apply Z.add_nonneg_nonneg; [lia|]. apply Z.div_pos; lia.
  - subst rem. rewrite Hb, scoreBps_10000. apply bias_rem. exact Hr.
  - subst rem. rewrite Hb. apply bias_rem. exact Hr.
Qed.

(** C10 (non-empty first band): for six finish times the resolver
    returns a first band with at least one lane and a positive count, so
    the win share [1 / first.count] never divides by zero. *)
Theorem finishOrder_first_nonempty (ft ds : list Z) :
  length ft = 6%nat -> length ds = 6%nat ->
  exists fo, calculateFinishOrder ft ds = Some fo
    /\ 1 <= count (first fo)
    /\ lanes (first fo) <> []
    /\ ~ (zq (count (first fo)) == 0)%Q.
Proof.
  intros Hft _.
  destruct (calculateFinishOrder_bands ft ds Hft) as (fo & E & Hb).
  exists fo. split; [exact E|].
  destruct Hb as (E1 & _ & _ & _ & _ & Hs).
  pose proof (shapeb_bounds _ _ _ Hs) as Hbd.
  split; [lia|]. split.
  - intros Hn. rewrite Hn in E1. simpl in E1. lia.
  - unfold zq, Qeq. simpl. lia.
Qed.

(** * Further properties *)

(** For every lane, the win basis points are at most the place basis
    points, which are at most the show basis points, in any successful
    result of [calculateProbabilities]. *)
Theorem calculateProbabilities_lane_order (clock : Z * Z) (scores : list num)
    (samples : num) (salt : Z) (r : Result) :
  snd (calculateProbabilities clock scores samples salt) = Return r ->
  forall i, (i < 6)%nat ->
    nth i (winProbBps r) 0 <= nth i (placeProbBps r) 0
    /\ nth i (placeProbBps r) 0 <= nth i (showProbBps r) 0.
Proof.
  unfold calculateProbabilities.
  destruct (negb (Nat.eqb (length scores) LANE_COUNT)); [discriminate|].
  destruct samples as [q| | |]; try discriminate.
  destruct (Qle_bool q 0) eqn:Eq; [discriminate|].
  assert (Hq : (0 < q)%Q).
  { destruct (Qlt_le_dec 0 q) as [H|H]; [exact H|].
    apply Qle_bool_iff in H. congruence. }
  destruct (runSamples (iterations q) (mixScores (initialSeed salt) (map clampScore scores))
              (map clampScore scores) (repeat (mkStats 0 0 0) LANE_COUNT))
    as [calls [st|]] eqn:Er; [|discriminate].
  cbn [snd]. intros H. injection H as <-.
  assert (Ho : laneOrdered st).
  { refine (runSamples_inv laneOrdered accumulateStats_ordered _ _ _ _ _ _ _ Er).
    split; [reflexivity|]. intros i Hi. change d0 with (mkStats 0 0 0).
    rewrite nth_repeat. cbn. lra. }
  destruct Ho as [Hl Ho].
  intros i Hi. specialize (Ho i Hi). cbn [winProbBps placeProbBps showProbBps].
  set (f := fun k (s : LaneStats) => fmtBps (credit k s / q)).
  assert (Hn : forall k, nth i (map (f k) st) 0 = f k (nth i st d0)).
  { intros k. rewrite (nth_indep _ 0 (f k d0)) by (rewrite length_map; lia).
    apply map_nth. }
  change (fun s => fmtBps (winCredits s / q)) with (f Win).
  change (fun s => fmtBps (placeCredits s / q)) with (f Place).
  change (fun s => fmtBps (showCredits s / q)) with (f Show).
  rewrite !Hn. unfold f. cbn [credit].
  assert (Hi' : (0 <= / q)%Q) by (apply Qinv_le_0_compat; lra).
  unfold Qdiv. destruct Ho as [H1 H2].
  split; apply fmtBps_mono; apply Qmult_le_compat_r; assumption.
Qed.

(** A lane listed in none of the three bands of the finish order of a race
    gets no credit of any kind from [accumulateStats]. *)
Theorem accumulateStats_unlisted_unchanged (ft ds : list Z) (fo : FinishOrder)
    (st st' : list LaneStats) (k : Credit) (i : nat) :
  length ft = 6%nat -> calculateFinishOrder ft ds = Some fo ->
  length st = 6%nat -> accumulateStats st fo = Some st' ->
  ~ In i (lanes (first fo) ++ lanes (second fo) ++ lanes (third fo)) ->
  (credit k (nth i st' d0) == credit k (nth i st d0))%Q.
Proof.
  intros Hft Hfo Hl Ha Hn.
  destruct (accumulateStats_lane ft ds fo st st' Hft Hfo Hl Ha) as (_ & Hl' & Hlane).
  destruct (Nat.lt_ge_cases i 6) as [Hi|Hi].
  - rewrite (Hlane k i Hi), contrib_plan.
    rewrite !in_app_iff in Hn.
    rewrite (proj1 (count_occ_not_In Nat.eq_dec (lanes (first fo)) i)) by tauto.
    rewrite (proj1 (count_occ_not_In Nat.eq_dec (lanes (second fo)) i)) by tauto.
    rewrite (proj1 (count_occ_not_In Nat.eq_dec (lanes (third fo)) i)) by tauto.
    rewrite planTotal_unlisted. ring.
  - rewrite !nth_overflow by lia. reflexivity.
Qed.

(** Two lanes tied in the same band of the finish order get exactly the
    same credit of every kind from [accumulateStats]. *)
Theorem accumulateStats_band_fair (ft ds : list Z) (fo : FinishOrder)
    (st st' : list LaneStats) (k : Credit) (i j : nat) :
  length ft = 6%nat -> calculateFinishOrder ft ds = Some fo ->
  length st = 6%nat -> accumulateStats st fo = Some st' ->
  (In i (lanes (first fo)) /\ In j (lanes (first fo)))
  \/ (In i (lanes (second fo)) /\ In j (lanes (second fo)))
  \/ (In i (lanes (third fo)) /\ In j (lanes (third fo))) ->
  (credit k (nth i st' d0) - credit k (nth i st d0)
   == credit k (nth j st' d0) - credit k (nth j st d0))%Q.
Proof.
  intros Hft Hfo Hl Ha Hij.
  destruct (accumulateStats_lane ft ds fo st st' Hft Hfo Hl Ha) as (Hb & _ & Hlane).
  pose proof Hb as (_ & _ & _ & _ & Hlt & _).
  assert (Hi : (i < 6)%nat) by (apply Hlt; rewrite !in_app_iff; tauto).
  assert (Hj : (j < 6)%nat) by (apply Hlt; rewrite !in_app_iff; tauto).
  rewrite (Hlane k i Hi), (Hlane k j Hj), !contrib_plan.
  destruct (count_occ_one fo i Hb) as (Ci1 & Ci2 & Ci3).
  destruct (count_occ_one fo j Hb) as (Cj1 & Cj2 & Cj3).
  destruct Hij as [[A B]|[[A B]|[A B]]];
    [destruct (Ci1 A) as (-> & -> & ->); destruct (Cj1 B) as (-> & -> & ->)
    |destruct (Ci2 A) as (-> & -> & ->); destruct (Cj2 B) as (-> & -> & ->)
    |destruct (Ci3 A) as (-> & -> & ->); destruct (Cj3 B) as (-> & -> & ->)];
    ring.
Qed.

(** [simulateFullRace] returns six distances and six finish times; each
    lane either never finished ([-1], distance below the track length) or
    reached the track length with a finish time in [0, MAX_TICKS * 10000]. *)
Theorem simulateFullRace_finish_times (seed : Z) (scores : list num)
    (fo : FinishOrder) (ds ft : list Z) :
  simulateFullRace seed scores = Some (fo, ds, ft) ->
  length ds = 6%nat /\ length ft = 6%nat
  /\ forall i, (i < 6)%nat ->
       (nth i ft 0 = -1 /\ nth i ds 0 < 1000)
       \/ (1000 <= nth i ds 0 /\ 0 <= nth i ft 0 <= 5000000).
Proof.
  unfold simulateFullRace.
  match goal with |- context [race ?f ?t ?b ?s] =>
    pose proof (race_inv f b t s) as Hr;
    destruct (race f t b s) as [g ds' ft'] end.
  cbn [finishTimes distances] in *.
  destruct (calculateFinishOrder ft' ds'); [|discriminate].
  intros E. injection E as _ <- <-.
  destruct Hr as (H1 & H2 & H3).
  - lia.
  - split; [reflexivity|]. split; [reflexivity|]. intros i Hi.
    do 6 (destruct i as [|i]; [left; split; reflexivity|]). lia.
  - split; [exact H1|]. split; [exact H2|]. intros i Hi. specialize (H3 i Hi).
    change (Z.of_nat MAX_TICKS) with 500 in H3.
    unfold laneDone, TRACK_LENGTH, FINISH_TIME_PRECISION in H3.
    cbn [distances finishTimes] in H3. lia.
Qed.

(** For at most [2^32] samples, the race seeds passed to
    [simulateFullRace] by [calculateProbabilities] are pairwise distinct. *)
Theorem calculateProbabilities_distinct_seeds (clock : Z * Z) (scores : list num)
    (q : Q) (salt : Z) :
  (q <= inject_Z (2 ^ 32))%Q ->
  NoDup (map fst (fst (calculateProbabilities clock scores (Fin q) salt))).
Proof.
  intros Hq. unfold calculateProbabilities.
  destruct (negb (Nat.eqb (length scores) LANE_COUNT)); [constructor|].
  destruct (Qle_bool q 0); [constructor|].
  assert (Hn : Z.of_nat (iterations q) <= 2 ^ 32).
  { unfold iterations. pose proof (Qceiling_resp_le _ _ Hq) as H.
    rewrite Qceiling_Z in H. lia. }
  destruct (runSamples_seeds (iterations q)
              (mixScores (initialSeed salt) (map clampScore scores))
              (map clampScore scores) (repeat (mkStats 0 0 0) LANE_COUNT))
    as (m & Hm & Heq).
  destruct (runSamples (iterations q)
              (mixScores (initialSeed salt) (map clampScore scores))
              (map clampScore scores) (repeat (mkStats 0 0 0) LANE_COUNT))
    as [calls [st|]]; cbn [fst] in Heq |- *; rewrite Heq;
    (apply NoDup_map_NoDup_ForallPairs; [|apply seq_NoDup]);
    intros k k' Hk Hk'; apply in_seq in Hk, Hk';
    apply seedAt_inj; lia.
Qed.

(** However [FastRng] is seeded and however many draws are made, its four
    words stay 32-bit and are never all zero. *)
Theorem FastRng_state_nonzero (seed : Z) (n : nat) :
  rngOk (warmUp n (newFastRng seed)).
Proof.
  apply warmUp_ok. unfold newFastRng. apply warmUp_ok.
  assert (A : forall v d, 0 < d < 2 ^ 32 -> 0 < orDefault (u32 v) d < 2 ^ 32)
    by (intros v d Hd; apply orDefault_range; [apply u32_range|exact Hd]).
  unfold rngOk; cbn [s0 s1 s2 s3].
  pose proof (A seed 0x12345678 ltac:(lia)).
  pose proof (A (seed * 0x85ebca6b) 0x9abcdef0 ltac:(lia)).
  pose proof (A (seed * 0xc2b2ae35) 0xdeadbeef ltac:(lia)).
  pose proof (A (seed * 0x27d4eb2f) 0xcafebabe ltac:(lia)).
  lia.
Qed.

(** The first band of [calculateFinishOrder] holds exactly the lanes whose
    finish time is the smallest of all. *)
Theorem calculateFinishOrder_first_min (ft ds : list Z) (fo : FinishOrder) :
  calculateFinishOrder ft ds = Some fo ->
  forall i, In i (lanes (first fo))
    <-> (i < length ft)%nat /\ forall j, (j < length ft)%nat -> nth i ft 0 <= nth j ft 0.
Proof.
  unfold calculateFinishOrder.
  pose proof (sortEntries_sorted (mkEntries ft ds)) as SS.
  pose proof (sortEntries_perm (mkEntries ft ds)) as P.
  destruct (sortEntries (mkEntries ft ds)) as [|e0 rest]; [discriminate|].
  intros E. injection E as <-.
  inversion SS as [|? ? SSr Fr]; subst.
  destruct (groupBy_first (mkGroup (time e0) [lane e0]) rest SSr Fr) as [gs Eg].
  rewrite Eg, assignPositions_0, assignPositions_first by (simpl; lia).
  cbn [first bandOf lanes glanes gtime app].
  assert (Hin : forall e, In e (e0 :: rest) <-> In e (mkEntries ft ds))
    by (intros e; split; apply Permutation_in; [exact P|symmetry; exact P]).
  assert (Hmin : forall e, In e (e0 :: rest) -> time e0 <= time e).
  { intros e [<-|He]; [lia|]. rewrite Forall_forall in Fr. apply Fr. exact He. }
  assert (H0 : In e0 (mkEntries ft ds)) by (apply Hin; left; reflexivity).
  apply In_mkEntries in H0 as (k & Hk & Ek).
  intros i. split.
  - intros Hi.
    assert (Hex : exists e, In e (e0 :: rest) /\ time e = time e0 /\ lane e = i).
    { destruct Hi as [<-|Hi].
      - exists e0. split; [left; reflexivity|split; reflexivity].
      - apply in_map_iff in Hi as (e & <- & He).
        apply filter_In in He as [He Ht]. apply Z.eqb_eq in Ht.
        exists e. split; [right; exact He|split; [exact Ht|reflexivity]]. }
    destruct Hex as (e & He & Ht & <-).
    apply Hin, In_mkEntries in He as (m & Hm & ->). cbn [lane time] in *.
    split; [exact Hm|]. intros j Hj. rewrite Ht.
    apply (Hmin (mkEntry j (nth j ft 0) (nth_error ds j))), Hin, In_mkEntries.
    exists j. split; [exact Hj|reflexivity].
  - intros (Hi & Hmi).
    assert (Hei : In (mkEntry i (nth i ft 0) (nth_error ds i)) (e0 :: rest))
      by (apply Hin, In_mkEntries; exists i; split; [exact Hi|reflexivity]).
    pose proof (Hmin _ Hei) as L1. cbn [time] in L1.
    pose proof (Hmi k Hk) as L2. rewrite Ek in L1. cbn [time] in L1.
    destruct Hei as [Ee|Hr].
    + left. rewrite Ee. reflexivity.
    + right. apply in_map_iff. exists (mkEntry i (nth i ft 0) (nth_error ds i)).
      split; [reflexivity|]. apply filter_In. split; [exact Hr|].
      apply Z.eqb_eq. rewrite Ek. cbn [time]. lia.
Qed.

(** The earlier copy of the simulator and the current one draw the same
    random numbers: they return the same distances, and each finish tick
    is the tick the precise finish time falls in. *)
Theorem simulateFullRaceTicks_refines (seed : Z) (scores : list num) :
  match simulateFullRace seed scores, simulateFullRaceTicks seed scores with
  | Some (_, ds, ft), Some (_, ds', fk) => ds' = ds /\ fk = map tickOf ft
  | _, _ => False
  end.
Proof.
  unfold simulateFullRace, simulateFullRaceTicks.
  set (bps := map (fun i => scoreBps (scoreAt scores i)) (seq 0 LANE_COUNT)).
  set (st0 := mkRace (newFastRng seed) (repeat 0 LANE_COUNT) (repeat (-1) LANE_COUNT)).
  assert (H0 : ticksRel st0 st0).
  { split; [reflexivity|]. split; [reflexivity|].
    split; [reflexivity|]. split; [reflexivity|].
    intros i Hi. cbn [finishTimes st0].
    do 6 (destruct i as [|i]; [split; [left; reflexivity|reflexivity]|]). lia. }
  assert (Hb : forall a, (a < 6)%nat -> 0 <= nth a bps 0 <= 10000).
  { intros a Ha. unfold bps. rewrite nth_bps by exact Ha. apply scoreBps_range. }
  pose proof (race_ticks MAX_TICKS bps Hb 0 st0 st0 ltac:(lia) H0) as (_ & Ed & Ln & Lo & Hf).
  destruct (race MAX_TICKS 0 bps st0) as [g ds ft].
  destruct (raceTicks MAX_TICKS 0 bps st0) as [g' ds' fk].
  cbn [distances finishTimes] in *.
  destruct (calculateFinishOrder_bands ft ds Ln) as (fo & -> & _).
  destruct (calculateFinishOrder_bands fk ds' Lo) as (fo' & -> & _).
  split; [symmetry; exact Ed|].
  apply nth_ext with (d := 0) (d' := tickOf 0); [rewrite length_map; congruence|].
  intros i Hi. rewrite Lo in Hi. rewrite map_nth. apply Hf. exact Hi.
Qed.

(** Clamping the scores to [1, 10] before calling [simulateFullRace] does
    not change its result. *)
Theorem simulateFullRace_clamped_scores (seed : Z) (scores : list num) :
  simulateFullRace seed (map numOfZ (map clampScore scores))
  = simulateFullRace seed scores.
Proof.
  unfold simulateFullRace.
  replace (map (fun i => scoreBps (scoreAt (map numOfZ (map clampScore scores)) i))
             (seq 0 LANE_COUNT))
    with (map (fun i => scoreBps (scoreAt scores i)) (seq 0 LANE_COUNT));
    [reflexivity|].
  apply map_ext. intros i. unfold scoreAt. rewrite !nth_error_map.
  destruct (nth_error scores i) as [s|]; [|reflexivity].
  cbn [option_map]. unfold scoreBps. rewrite clampScore_clamped. reflexivity.
Qed.

(** * Witnesses *)

Lemma accumulateStats_totals_witness :
  exists st', accumulateStats (repeat d0 6)
                (mkOrder (mkBand [0%nat] 1) (mkBand [1%nat] 1) (mkBand [2%nat] 1))
              = Some st'
    /\ (sumCredit Win st' == sumCredit Win (repeat d0 6) + 1)%Q
    /\ (sumCredit Place st' == sumCredit Place (repeat d0 6) + 2)%Q
    /\ (sumCredit Show st' == sumCredit Show (repeat d0 6) + 3)%Q.
Proof.
  apply (accumulateStats_totals [1; 2; 3; 4; 5; 6] [1; 2; 3; 4; 5; 6]);
    reflexivity.
Defined.

Lemma calculateProbabilities_bps_witness :
  exists calls r,
    calculateProbabilities (0, 5) (repeat (Fin 7) 6) (Fin (zq 2)) 0
    = (calls, Return r)
    /\ bpsArrayOk (winProbBps r) 10000
    /\ bpsArrayOk (placeProbBps r) 20000
    /\ bpsArrayOk (showProbBps r) 30000.
Proof.
  apply calculateProbabilities_bps; [reflexivity | lia].
Defined.

Lemma accumulateStats_all_tied_witness :
  exists st', accumulateStats (repeat d0 6)
                (mkOrder (mkBand (seq 0 6) 6) emptyBand emptyBand) = Some st'
    /\ forall i, (i < 6)%nat ->
         (winCredits (nth i st' d0) == winCredits (nth i (repeat d0 6) d0) + (1 # 6))%Q
         /\ (placeCredits (nth i st' d0)
             == placeCredits (nth i (repeat d0 6) d0) + (2 # 6))%Q
         /\ (showCredits (nth i st' d0)
             == showCredits (nth i (repeat d0 6) d0) + (3 # 6))%Q.
Proof.
  apply accumulateStats_all_tied; reflexivity.
Defined.

Lemma tick_advances_witness :
  nth 2 (distances (tick 0 (repeat 10000 6)
                      (mkRace (newFastRng 7) (repeat 0 6) (repeat (-1) 6)))) 0
  >= nth 2 (distances (mkRace (newFastRng 7) (repeat 0 6) (repeat (-1) 6))) 0 + 1.
Proof.
  apply tick_advances; [reflexivity | lia].
Defined.

Lemma moveLane_draws_witness :
  let bps := map (fun i => scoreBps (scoreAt (repeat (Fin 10) 6) i))
                 (seq 0 LANE_COUNT) in
  let st := mkRace (newFastRng 7) (repeat 0 6) (repeat (-1) 6) in
  let g1 := fst (next (rng st)) in
  let rem := Z.rem ((snd (next (rng st)) mod 10 + 1) * nth 0 bps 0) 10000 in
  rng (moveLane 0 bps st 0) = (if 0 <? rem then fst (next g1) else g1)
  /\ 0 <= rem
  /\ (rem = 0 <-> nth 0 bps 0 = 10000)
  /\ (rem = 0 <-> clampScore (scoreAt (repeat (Fin 10) 6) 0) = 10).
Proof.
  exact (moveLane_draws 0 (repeat (Fin 10) 6)
           (mkRace (newFastRng 7) (repeat 0 6) (repeat (-1) 6)) 0 ltac:(lia)).
Defined.

Lemma finishOrder_first_nonempty_witness :
  exists fo, calculateFinishOrder [5; 5; 5; 7; 7; 9] [1; 2; 3; 4; 5; 6] = Some fo
    /\ 1 <= count (first fo)
    /\ lanes (first fo) <> []
    /\ ~ (zq (count (first fo)) == 0)%Q.
Proof.
  apply finishOrder_first_nonempty; reflexivity.
Defined.

Lemma accumulateStats_unlisted_unchanged_witness :
  exists fo st', calculateFinishOrder [5; 5; 5; 7; 7; 9] [1; 2; 3; 4; 5; 6] = Some fo
    /\ accumulateStats (repeat d0 6) fo = Some st'
    /\ (credit Show (nth 4 st' d0) == credit Show (nth 4 (repeat d0 6) d0))%Q.
Proof.
  eexists; eexists; split; [reflexivity|]; split; [reflexivity|].
  eapply (accumulateStats_unlisted_unchanged [5; 5; 5; 7; 7; 9] [1; 2; 3; 4; 5; 6]);
    try reflexivity.
  simpl. intuition discriminate.
Defined.

Lemma accumulateStats_band_fair_witness :
  exists fo st', calculateFinishOrder [5; 5; 8; 7; 5; 9] [1; 2; 3; 4; 5; 6] = Some fo
    /\ accumulateStats (repeat d0 6) fo = Some st'
    /\ (credit Place (nth 1 st' d0) - credit Place (nth 1 (repeat d0 6) d0)
        == credit Place (nth 4 st' d0) - credit Place (nth 4 (repeat d0 6) d0))%Q.
Proof.
  eexists; eexists; split; [reflexivity|]; split; [reflexivity|].
  eapply (accumulateStats_band_fair [5; 5; 8; 7; 5; 9] [1; 2; 3; 4; 5; 6]);
    try reflexivity.
  left. simpl. tauto.
Defined.

Lemma calculateProbabilities_lane_order_witness :
  let r := mkResult [10; 3; 7; 1; 5; 9] (Fin 4) 5
             [2500; 0; 2500; 0; 0; 5000] [5000; 0; 5000; 0; 2500; 7500]
             [7500; 5000; 5000; 0; 5000; 7500] in
  snd (calculateProbabilities (0, 5) [Fin 10; Fin 3; Fin 7; Fin 1; Fin 5; Fin 9]
         (Fin 4) 0) = Return r
  /\ nth 4 (winProbBps r) 0 <= nth 4 (placeProbBps r) 0
  /\ nth 4 (placeProbBps r) 0 <= nth 4 (showProbBps r) 0.
Proof.
  intros r.
  assert (E : snd (calculateProbabilities (0, 5)
                     [Fin 10; Fin 3; Fin 7; Fin 1; Fin 5; Fin 9] (Fin 4) 0)
              = Return r) by (vm_compute; reflexivity).
  split; [exact E|].
  exact (calculateProbabilities_lane_order (0, 5)
           [Fin 10; Fin 3; Fin 7; Fin 1; Fin 5; Fin 9] (Fin 4) 0 r E 4
           ltac:(lia)).
Defined.

Lemma simulateFullRace_finish_times_witness :
  let fo := mkOrder (mkBand [5%nat] 1) (mkBand [2%nat] 1) (mkBand [0%nat] 1) in
  let ds := [1077; 1027; 1065; 1011; 1061; 1111] in
  let ft := [1798000; 1868333; 1764000; 1896666; 1821250; 1747500] in
  simulateFullRace 7 [Fin 10; Fin 3; Fin 7; Fin 1; Fin 5; Fin 9] = Some (fo, ds, ft)
  /\ (length ds = 6%nat /\ length ft = 6%nat
      /\ forall i, (i < 6)%nat ->
           (nth i ft 0 = -1 /\ nth i ds 0 < 1000)
           \/ (1000 <= nth i ds 0 /\ 0 <= nth i ft 0 <= 5000000)).
Proof.
  intros fo ds ft.
  assert (E : simulateFullRace 7 [Fin 10; Fin 3; Fin 7; Fin 1; Fin 5; Fin 9]
              = Some (fo, ds, ft)) by (vm_compute; reflexivity).
  split; [exact E|].
  exact (simulateFullRace_finish_times 7
           [Fin 10; Fin 3; Fin 7; Fin 1; Fin 5; Fin 9] fo ds ft E).
Defined.

Lemma calculateProbabilities_distinct_seeds_witness :
  NoDup (map fst (fst (calculateProbabilities (0, 5) (repeat (Fin 7) 6)
                         (Fin 3) 0))).
Proof.
  apply (calculateProbabilities_distinct_seeds (0, 5) (repeat (Fin 7) 6) 3 0).
  unfold Qle; simpl; lia.
Defined.

Lemma calculateFinishOrder_first_min_witness :
  let fo := mkOrder (mkBand [4%nat; 1%nat; 0%nat] 3) (mkBand [] 0)
              (mkBand [] 0) in
  calculateFinishOrder [5; 5; 8; 7; 5; 9] [1; 2; 3; 4; 5; 6] = Some fo
  /\ (In 1%nat (lanes (first fo))
      <-> (1 < length [5; 5; 8; 7; 5; 9])%nat
          /\ forall j, (j < length [5; 5; 8; 7; 5; 9])%nat ->
               nth 1 [5; 5; 8; 7; 5; 9] 0 <= nth j [5; 5; 8; 7; 5; 9] 0).
Proof.
  intros fo.
  assert (E : calculateFinishOrder [5; 5; 8; 7; 5; 9] [1; 2; 3; 4; 5; 6]
              = Some fo) by reflexivity.
  split; [exact E|].
  exact (calculateFinishOrder_first_min [5; 5; 8; 7; 5; 9] [1; 2; 3; 4; 5; 6]
           fo E 1%nat).
Defined.
